(** * BookNotes bot: the book and note state manager of [bot.py]

    A shallow embedding of the handlers of [BookNotesBot] over an explicit
    model of the two MongoDB collections ([users], [books]), followed by the
    properties of the state manager and of the review prompt.

    Modelling conventions.
    - A collection is the list of its documents in insertion order;
      [find_one] returns the first match, [update_one] rewrites the first
      match and does nothing when there is none, [insert_one] appends.
    - [datetime.utcnow()] is an argument of the handler that reads it.
    - The OpenAI calls are arguments too: the transcription of a voice file
      is an [option string] ([None]: the download or the transcription
      raised), the chat completion is a function from the prompt to an
      [option string].
    - A handler returns the final message it sends as a [Reply]; an
      exception that leaves the handler is the reply [raised]. In the two
      [try] blocks the Markdown edit that reports the result comes after the
      write and may itself raise: whether it goes through is the argument
      [sent] of the handler.
    - A [string] is the UTF-8 encoding of a Python [str]. *)

From Stdlib Require Import String Ascii DecimalString.
From Stdlib Require Import ZArith Arith Lia Bool List Sorted.
From Stdlib Require Import Permutation.
Import ListNotations.

Set Implicit Arguments.

(** ** Documents *)

Definition ObjectId := nat.
Definition datetime := nat.
Definition UserId := Z.

Inductive NoteType := text | voice.

Record Note := mkNote {
  note_content : string;
  note_type : NoteType;
  note_timestamp : datetime;
  note_message_id : Z;
  note_duration : option nat   (* key present on voice notes only *)
}.

Inductive Status := reading | finished.

Definition Status_eqb (a b : Status) : bool :=
  match a, b with
  | reading, reading | finished, finished => true
  | _, _ => false
  end.

Record Book := mkBook {
  bk_id : ObjectId;                         (* "_id" *)
  bk_user_id : UserId;
  bk_title : string;
  bk_notes : list Note;
  bk_status : Status;
  bk_created_at : datetime;
  bk_finished_at : option datetime;
  bk_ai_review : option string;             (* key absent until a review *)
  bk_review_generated_at : option datetime  (* key absent until a review *)
}.

Record User := mkUser {
  usr_user_id : UserId;
  usr_username : string;
  usr_last_active : datetime;
  usr_created_at : datetime;
  usr_current_book_id : option ObjectId
}.

Record DB := mkDB {
  users_collection : list User;
  books_collection : list Book
}.

Definition empty_db : DB := mkDB [] [].

(** ** The state monad of a handler *)

Definition M (A : Type) : Type := DB -> A * DB.

Definition ret {A} (a : A) : M A := fun db => (a, db).
Definition bind {A B} (m : M A) (k : A -> M B) : M B :=
  fun db => let (a, db') := m db in k a db'.
Definition exec {A} (m : M A) (db : DB) : DB := snd (m db).
Definition eval {A} (m : M A) (db : DB) : A := fst (m db).

Declare Scope db_scope.
Delimit Scope db_scope with db.
Notation "x <- m ;; k" := (bind m (fun x => k))
  (at level 61, m at next level, right associativity) : db_scope.
Notation "m ;; k" := (bind m (fun _ => k))
  (at level 61, right associativity) : db_scope.
Open Scope db_scope.

(** ** Collection operations (pymongo) *)

Section Collection.
Variable A : Type.

(** [update_one(filter, update)]: the first matching document is
    rewritten; no match, no change. *)
Fixpoint update_first (p : A -> bool) (f : A -> A) (l : list A) : list A :=
  match l with
  | [] => []
  | x :: r => if p x then f x :: r else x :: update_first p f r
  end.

(** [update_one(filter, update, upsert=True)]. *)
Definition upsert_first (p : A -> bool) (f : A -> A) (fresh : A)
    (l : list A) : list A :=
  if existsb p l then update_first p f l else l ++ [fresh].
End Collection.

Definition is_user (uid : UserId) (u : User) : bool := Z.eqb (usr_user_id u) uid.
Definition has_id (oid : ObjectId) (b : Book) : bool := Nat.eqb (bk_id b) oid.
Definition owned_by (uid : UserId) (b : Book) : bool := Z.eqb (bk_user_id b) uid.

(** The [ObjectId] the driver gives to an inserted document: distinct from
    the id of every document of the collection. *)
Definition new_ObjectId (books : list Book) : ObjectId :=
  S (list_max (map bk_id books)).

Definition users_find_one (uid : UserId) : M (option User) :=
  fun db => (find (is_user uid) (users_collection db), db).

Definition books_find_one (oid : ObjectId) : M (option Book) :=
  fun db => (find (has_id oid) (books_collection db), db).

Definition books_find (p : Book -> bool) : M (list Book) :=
  fun db => (filter p (books_collection db), db).

Definition users_update_one (uid : UserId) (f : User -> User) : M unit :=
  fun db => (tt, mkDB (update_first (is_user uid) f (users_collection db))
                      (books_collection db)).

Definition users_upsert (uid : UserId) (f : User -> User) (fresh : User) : M unit :=
  fun db => (tt, mkDB (upsert_first (is_user uid) f fresh (users_collection db))
                      (books_collection db)).

Definition books_update_one (oid : ObjectId) (f : Book -> Book) : M unit :=
  fun db => (tt, mkDB (users_collection db)
                      (update_first (has_id oid) f (books_collection db))).

Definition books_insert_one (doc : ObjectId -> Book) : M ObjectId :=
  fun db => let oid := new_ObjectId (books_collection db) in
            (oid, mkDB (users_collection db) (books_collection db ++ [doc oid])).

(** The update documents of the source. *)

Definition set_username_last_active (name : string) (now : datetime) (u : User) : User :=
  mkUser (usr_user_id u) name now (usr_created_at u) (usr_current_book_id u).

Definition set_current_book_id (c : option ObjectId) (u : User) : User :=
  mkUser (usr_user_id u) (usr_username u) (usr_last_active u) (usr_created_at u) c.

Definition push_note (n : Note) (b : Book) : Book :=
  mkBook (bk_id b) (bk_user_id b) (bk_title b) (bk_notes b ++ [n]) (bk_status b)
         (bk_created_at b) (bk_finished_at b) (bk_ai_review b)
         (bk_review_generated_at b).

Definition set_review (review : string) (now : datetime) (b : Book) : Book :=
  mkBook (bk_id b) (bk_user_id b) (bk_title b) (bk_notes b) (bk_status b)
         (bk_created_at b) (bk_finished_at b) (Some review) (Some now).

Definition set_finished (now : datetime) (b : Book) : Book :=
  mkBook (bk_id b) (bk_user_id b) (bk_title b) (bk_notes b) finished
         (bk_created_at b) (Some now) (bk_ai_review b)
         (bk_review_generated_at b).

(** ** Strings (Python [str], [join], [strip]) *)

Definition nl : string := String "010"%char EmptyString.
Definition dquote : string := String "034"%char EmptyString.

Infix "+++" := String.append (at level 60, right associativity).

(** [str(n)] for a non-negative [int]. *)
Definition str (n : nat) : string := NilEmpty.string_of_uint (Nat.to_uint n).

(** [sep.join(l)]. *)
Definition join (sep : string) (l : list string) : string := String.concat sep l.

(** The code points of [str.isspace], which [str.strip()] removes. *)
Definition whitespace : list N :=
  [9; 10; 11; 12; 13; 28; 29; 30; 31; 32; 133; 160; 5760;
   8192; 8193; 8194; 8195; 8196; 8197; 8198; 8199; 8200; 8201; 8202;
   8232; 8233; 8239; 8287; 12288]%N.

(** UTF-8 of a code point below 65536. *)
Definition utf8 (n : N) : list ascii :=
  map ascii_of_N
    (if n <? 128 then [n]
     else if n <? 2048 then [192 + n / 64; 128 + n mod 64]
     else [224 + n / 4096; 128 + (n / 64) mod 64; 128 + n mod 64])%N.

(** The rest of [l] after the prefix [p], when [l] starts with [p]. *)
Fixpoint after_prefix (p l : list ascii) : option (list ascii) :=
  match p, l with
  | [], _ => Some l
  | a :: p', b :: l' => if Ascii.eqb a b then after_prefix p' l' else None
  | _ :: _, [] => None
  end.

(** The rest of [l] after one leading white space, when there is one. *)
Fixpoint after_space (spaces : list (list ascii)) (l : list ascii)
    : option (list ascii) :=
  match spaces with
  | [] => None
  | p :: others =>
      match after_prefix p l with
      | Some rest => Some rest
      | None => after_space others l
      end
  end.

Fixpoint drop_spaces (fuel : nat) (spaces : list (list ascii)) (l : list ascii)
    : list ascii :=
  match fuel with
  | 0 => l
  | S fuel' =>
      match after_space spaces l with
      | Some rest => drop_spaces fuel' spaces rest
      | None => l
      end
  end.

Definition lstrip (s : string) : string :=
  string_of_list_ascii
    (drop_spaces (String.length s) (map utf8 whitespace) (list_ascii_of_string s)).

Definition rstrip (s : string) : string :=
  string_of_list_ascii
    (rev (drop_spaces (String.length s)
            (map (fun c => rev (utf8 c)) whitespace)
            (rev (list_ascii_of_string s)))).

Definition strip (s : string) : string := rstrip (lstrip s).

(** [x or "Anonymous"] on an optional string: [None] and [""] are falsy. *)
Definition or_Anonymous (username : option string) : string :=
  match username with
  | None | Some EmptyString => "Anonymous"%string
  | Some s => s
  end.

(** ** The review prompt *)

(** [enumerate(l)]. *)
Definition enumerate {A} (l : list A) : list (nat * A) :=
  combine (seq 0 (length l)) l.

(** The argument of ["\n\n".join] in [generate_review_command]:
    [[f"Note {i+1}: {note['content']}" for i, note in enumerate(notes)]]. *)
Definition note_blocks (notes : list Note) : list string :=
  map (fun p : nat * Note =>
         let (i, note) := p in
         "Note " +++ str (i + 1) +++ ": " +++ note_content note)%string
      (enumerate notes).

Definition notes_text (notes : list Note) : string :=
  join (nl +++ nl) (note_blocks notes).

(** The f-string of [generate_ai_review], in three parts around its two
    fields. *)
Definition prompt_head : string :=
  nl +++ "Based on the following personal reading notes for the book " +++ dquote.

Definition prompt_middle : string :=
  dquote +++ ", write a thoughtful and comprehensive book review. " +++ nl +++
  nl +++
  "Reading Notes:" +++ nl.

Definition prompt_tail : string :=
  nl +++
  nl +++
  "Please write a review that covers:" +++ nl +++
  "1. Overall impression and rating" +++ nl +++
  "2. Key themes and main ideas" +++ nl +++
  "3. Strengths and notable aspects" +++ nl +++
  "4. Any criticisms or weaknesses mentioned" +++ nl +++
  "5. Personal takeaways and recommendations" +++ nl +++
  nl +++
  "Write in a personal, engaging tone as if the reader took these notes themselves. Keep it concise but insightful (200-400 words)." +++ nl +++
  "        ".

Definition prompt (book_title notes_text : string) : string :=
  prompt_head +++ book_title +++ prompt_middle +++ notes_text +++ prompt_tail.

(** [generate_ai_review]: the chat completion is called on the prompt and
    its answer is stripped; [None] when the call raises. *)
Definition generate_ai_review (chat : string -> option string)
    (book_title notes_text : string) : option string :=
  match chat (prompt book_title notes_text) with
  | Some answer => Some (strip answer)
  | None => None
  end.

(** ** Replies *)

Inductive Reply :=
| welcome_text
| help_text
| provide_title                                   (* "Please provide a book title" *)
| started_tracking (title : string)               (* "This is now your active book" *)
| no_books_yet
| books_text (lines : list (Status * string * bool * nat))
| no_active_book                                  (* "No active book set" *)
| current_text (title : string) (note_count : nat) (status : Status)
               (created : datetime)
| no_active_books_found
| only_one_active (title : string)
| select_a_book (keyboard : list (string * nat * ObjectId))
| switched_to (title : string)
| note_saved (title : string)
| voice_note_saved (title transcription : string)
| voice_note_failed
| no_notes_found (title : string)
| review_text (title : string) (note_count : nat) (review : string)
| review_failed
| marked_as_finished (title : string) (note_count : nat)
| no_stats_yet
| stats_text (total_books finished_books reading_books total_notes : nat)
             (most_noted_title : string) (most_noted_count : nat)
| no_reply
| raised.                                         (* an exception left the handler *)

(** ** Handlers *)

Definition get_current_book (user_id : UserId) : M (option Book) :=
  user <- users_find_one user_id ;;
  match user with
  | None => ret None
  | Some u =>
      match usr_current_book_id u with
      | None => ret None
      | Some oid => books_find_one oid
      end
  end.

Definition start_command (user_id : UserId) (username : option string)
    (now_active now_created : datetime) : M Reply :=
  let username := or_Anonymous username in
  users_upsert user_id
    (set_username_last_active username now_active)
    (mkUser user_id username now_active now_created None) ;;
  ret welcome_text.

Definition new_book_command (user_id : UserId) (args : list string)
    (now : datetime) : M Reply :=
  match args with
  | [] => ret provide_title
  | _ =>
      let title := join " " args in
      book_id <- books_insert_one
                   (fun oid => mkBook oid user_id title [] reading now None None None) ;;
      users_update_one user_id (set_current_book_id (Some book_id)) ;;
      ret (started_tracking title)
  end.

(** [.sort("created_at", -1)]: newest first; books of the same date keep
    their store order. *)
Fixpoint insert_desc (b : Book) (l : list Book) : list Book :=
  match l with
  | [] => [b]
  | x :: r => if bk_created_at b <? bk_created_at x then x :: insert_desc b r
              else b :: l
  end.

Definition sort_created_desc (l : list Book) : list Book :=
  fold_right insert_desc [] l.

Definition my_books_command (user_id : UserId) : M Reply :=
  books <- books_find (owned_by user_id) ;;
  match books with
  | [] => ret no_books_yet
  | _ =>
      user <- users_find_one user_id ;;
      let current_book_id :=
        match user with Some u => usr_current_book_id u | None => None end in
      ret (books_text
             (map (fun book =>
                     (bk_status book, bk_title book,
                      match current_book_id with
                      | Some c => Nat.eqb (bk_id book) c
                      | None => false
                      end,
                      length (bk_notes book)))
                  (sort_created_desc books)))
  end.

Definition current_book_command (user_id : UserId) : M Reply :=
  current_book <- get_current_book user_id ;;
  match current_book with
  | None => ret no_active_book
  | Some b => ret (current_text (bk_title b) (length (bk_notes b)) (bk_status b)
                                (bk_created_at b))
  end.

Definition switch_book_command (user_id : UserId) : M Reply :=
  books <- books_find (fun b => owned_by user_id b && Status_eqb (bk_status b) reading) ;;
  match sort_created_desc books with
  | [] => ret no_active_books_found
  | [b] => ret (only_one_active (bk_title b))
  | books =>
      ret (select_a_book
             (map (fun book => (bk_title book, length (bk_notes book), bk_id book))
                  books))
  end.

(** [query.data]: ["switch_" + str(oid)], ["switch_"] followed by something
    [ObjectId] rejects, or any other data. *)
Inductive CallbackData :=
| switch_ (book_id : ObjectId)
| switch_invalid
| other_data.

Definition handle_callback_query (user_id : UserId) (data : CallbackData) : M Reply :=
  match data with
  | switch_ book_id =>
      users_update_one user_id (set_current_book_id (Some book_id)) ;;
      book <- books_find_one book_id ;;
      match book with
      | Some b => ret (switched_to (bk_title b))
      | None => ret raised              (* [book['title']] on [None] *)
      end
  | switch_invalid => ret raised        (* [ObjectId(...)] raises *)
  | other_data => ret no_reply
  end.

Definition handle_text_note (user_id : UserId) (text_content : string)
    (message_id : Z) (now : datetime) : M Reply :=
  current_book <- get_current_book user_id ;;
  match current_book with
  | None => ret no_active_book
  | Some b =>
      let note := mkNote text_content text now message_id None in
      books_update_one (bk_id b) (push_note note) ;;
      ret (note_saved (bk_title b))
  end.

Definition handle_voice_note (user_id : UserId) (transcript : option string)
    (message_id : Z) (voice_duration : nat) (now : datetime) (sent : bool)
    : M Reply :=
  current_book <- get_current_book user_id ;;
  match current_book with
  | None => ret no_active_book
  | Some b =>
      match transcript with
      | Some transcribed_text =>
          let note := mkNote transcribed_text voice now message_id
                             (Some voice_duration) in
          books_update_one (bk_id b) (push_note note) ;;
          if sent then ret (voice_note_saved (bk_title b) transcribed_text)
          else ret voice_note_failed   (* [except], after the [$push] *)
      | None => ret voice_note_failed
      end
  end.

Definition generate_review_command (user_id : UserId)
    (chat : string -> option string) (now : datetime) (sent : bool) : M Reply :=
  current_book <- get_current_book user_id ;;
  match current_book with
  | None => ret no_active_book
  | Some b =>
      match bk_notes b with
      | [] => ret (no_notes_found (bk_title b))
      | _ =>
          match generate_ai_review chat (bk_title b) (notes_text (bk_notes b)) with
          | Some review =>
              books_update_one (bk_id b) (set_review review now) ;;
              if sent
              then ret (review_text (bk_title b) (length (bk_notes b)) review)
              else ret review_failed   (* [except], after the [$set] *)
          | None => ret review_failed
          end
      end
  end.

Definition finish_book_command (user_id : UserId) (now : datetime) : M Reply :=
  current_book <- get_current_book user_id ;;
  match current_book with
  | None => ret no_active_book
  | Some b =>
      books_update_one (bk_id b) (set_finished now) ;;
      users_update_one user_id (set_current_book_id None) ;;
      ret (marked_as_finished (bk_title b) (length (bk_notes b)))
  end.

(** [max(books, key=...)] on a non-empty list: the first element whose key
    no later element exceeds. *)
Definition py_max {A} (key : A -> nat) (first : A) (rest : list A) : A :=
  fold_left (fun best x => if key best <? key x then x else best) rest first.

Definition note_count (b : Book) : nat := length (bk_notes b).

Definition stats_command (user_id : UserId) : M Reply :=
  books <- books_find (owned_by user_id) ;;
  match books with
  | [] => ret no_stats_yet
  | b0 :: rest =>
      let total_books := length books in
      let finished_books :=
        length (filter (fun b => Status_eqb (bk_status b) finished) books) in
      let reading_books := total_books - finished_books in
      let total_notes := list_sum (map note_count books) in
      let most_noted_book := py_max note_count b0 rest in
      ret (stats_text total_books finished_books reading_books total_notes
                      (bk_title most_noted_book) (note_count most_noted_book))
  end.

(** ** Updates and runs *)

Definition help_command : M Reply := ret help_text.

(** What the application dispatches to a handler, with the clock readings
    and the answers of the external services the handler will get. *)
Inductive Update :=
| cmd_start (user_id : UserId) (username : option string)
            (now_active now_created : datetime)
| cmd_help
| cmd_newbook (user_id : UserId) (args : list string) (now : datetime)
| cmd_mybooks (user_id : UserId)
| cmd_currentbook (user_id : UserId)
| cmd_switchbook (user_id : UserId)
| cmd_review (user_id : UserId) (chat : string -> option string) (now : datetime)
             (sent : bool)
| cmd_finish (user_id : UserId) (now : datetime)
| cmd_stats (user_id : UserId)
| text_message (user_id : UserId) (text_content : string) (message_id : Z)
               (now : datetime)
| voice_message (user_id : UserId) (transcript : option string) (message_id : Z)
                (voice_duration : nat) (now : datetime) (sent : bool)
| callback_query (user_id : UserId) (data : CallbackData).

Definition dispatch (u : Update) : M Reply :=
  match u with
  | cmd_start uid name t1 t2 => start_command uid name t1 t2
  | cmd_help => help_command
  | cmd_newbook uid args now => new_book_command uid args now
  | cmd_mybooks uid => my_books_command uid
  | cmd_currentbook uid => current_book_command uid
  | cmd_switchbook uid => switch_book_command uid
  | cmd_review uid chat now sent => generate_review_command uid chat now sent
  | cmd_finish uid now => finish_book_command uid now
  | cmd_stats uid => stats_command uid
  | text_message uid s mid now => handle_text_note uid s mid now
  | voice_message uid tr mid d now sent => handle_voice_note uid tr mid d now sent
  | callback_query uid data => handle_callback_query uid data
  end.

Fixpoint run (us : list Update) (db : DB) : DB :=
  match us with
  | [] => db
  | u :: rest => run rest (exec (dispatch u) db)
  end.

(** The replies of a run, in order. *)
Fixpoint replies (us : list Update) (db : DB) : list Reply :=
  match us with
  | [] => []
  | u :: rest => eval (dispatch u) db :: replies rest (exec (dispatch u) db)
  end.

(** The clock readings that come with an update, in the order in which the
    handler reads them when it gets that far. *)
Definition clock_readings (u : Update) : list datetime :=
  match u with
  | cmd_start _ _ t1 t2 => [t1; t2]
  | cmd_newbook _ _ now | cmd_review _ _ now _ | cmd_finish _ now
  | text_message _ _ _ now | voice_message _ _ _ _ now _ => [now]
  | _ => []
  end.

Definition clock_monotone (us : list Update) : Prop :=
  StronglySorted le (flat_map clock_readings us).

(** ** Vocabulary of the properties *)

(** Consecutive [/start] updates of one user: each call is the username the
    platform reports and the two clock readings of the handler. *)
Definition ensureUser_calls (uid : UserId)
    (calls : list (option string * datetime * datetime)) : list Update :=
  map (fun c => cmd_start uid (fst (fst c)) (snd (fst c)) (snd c)) calls.

(** Consecutive [/newbook] updates of one user: each call is the argument
    list and the clock reading. *)
Definition startBook_calls (uid : UserId)
    (calls : list (list string * datetime)) : list Update :=
  map (fun c => cmd_newbook uid (fst c) (snd c)) calls.

(** The user has a document in [users]. *)
Definition registered (uid : UserId) (db : DB) : Prop :=
  eval (users_find_one uid) db <> None.

(** [b] is the document [/newbook] builds for the call [c] of user [uid]. *)
Definition started_by (uid : UserId) (c : list string * datetime) (b : Book) : Prop :=
  bk_user_id b = uid /\ bk_title b = join " " (fst c) /\ bk_notes b = [] /\
  bk_status b = reading /\ bk_created_at b = snd c /\ bk_finished_at b = None /\
  bk_ai_review b = None /\ bk_review_generated_at b = None.

(** One stored book before and after some updates: identity, owner, title
    and creation date are kept, notes are only appended, and a finished
    book stays finished. *)
Definition book_grows (b b' : Book) : Prop :=
  bk_id b' = bk_id b /\ bk_user_id b' = bk_user_id b /\
  bk_title b' = bk_title b /\ bk_created_at b' = bk_created_at b /\
  (exists more, bk_notes b' = bk_notes b ++ more) /\
  (bk_status b = finished -> bk_status b' = finished).

(** The collection after some updates: the old documents, each grown in
    place, followed by the inserted ones. *)
Definition books_grow (l l' : list Book) : Prop :=
  exists old inserted, l' = old ++ inserted /\ Forall2 book_grows l old.

(** Creation dates never decrease along the collection. *)
Definition chronological (books : list Book) : Prop :=
  StronglySorted (fun a b => bk_created_at a <= bk_created_at b) books.

(** [s1] occurs in [p], and [s2] occurs after that occurrence. *)
Definition occurs_before (s1 s2 p : string) : Prop :=
  exists a b c, p = a +++ s1 +++ b +++ s2 +++ c.

(** The block the specification asks for the note at position [i]
    (counted from 0) of the stored sequence. *)
Definition spec_block (i : nat) (note : Note) : string :=
  "Note " +++ str (S i) +++ ": " +++ note_content note.

(** What one update may do to [books]: nothing, one [$push], one [$set]
    of a review, one [$set] of the finished state, or one insertion dated
    by a clock reading [ts] of the update. *)
Inductive books_write (ts : list datetime) (l : list Book) : list Book -> Prop :=
| bw_none : books_write ts l l
| bw_push oid n : books_write ts l (update_first (has_id oid) (push_note n) l)
| bw_review oid r t : books_write ts l (update_first (has_id oid) (set_review r t) l)
| bw_finish oid t : books_write ts l (update_first (has_id oid) (set_finished t) l)
| bw_insert uid title now :
    In now ts ->
    books_write ts l
      (l ++ [mkBook (new_ObjectId l) uid title [] reading now None None None]).

(** [db'] is [db] with [note] appended to the stored book [b] and nothing
    else changed. *)
Definition only_appends (note : Note) (b : Book) (db db' : DB) : Prop :=
  users_collection db' = users_collection db /\
  exists before after b',
    books_collection db = before ++ b :: after /\
    books_collection db' = before ++ b' :: after /\
    bk_notes b' = bk_notes b ++ [note] /\
    bk_id b' = bk_id b /\ bk_user_id b' = bk_user_id b /\
    bk_title b' = bk_title b /\ bk_status b' = bk_status b /\
    bk_created_at b' = bk_created_at b /\
    bk_finished_at b' = bk_finished_at b /\
    bk_ai_review b' = bk_ai_review b /\
    bk_review_generated_at b' = bk_review_generated_at b.

(** The blocks of a stored sequence of notes whose first note has position
    [i], and the prompt the specification describes: the blocks in stored
    order, a blank line between two of them, inside the fixed template. *)
Fixpoint spec_blocks_from (i : nat) (notes : list Note) : list string :=
  match notes with
  | [] => []
  | note :: rest => spec_block i note :: spec_blocks_from (S i) rest
  end.

Definition spec_prompt (title : string) (notes : list Note) : string :=
  prompt_head +++ title +++ prompt_middle +++
  join (nl +++ nl) (spec_blocks_from 0 notes) +++ prompt_tail.

(** ** Sample stores *)

(** A reader who sent [/start] and [/newbook Dune]. *)
Definition dune_db : DB :=
  run [cmd_start 1%Z (Some "reader"%string) 0 0;
       cmd_newbook 1%Z ["Dune"%string] 1] empty_db.

Definition dune_book : Book :=
  mkBook 1 1%Z "Dune" [] reading 1 None None None.

(** A reader with two books asks for the switch keyboard, finishes the
    current book [B], then presses the button of [B] on that keyboard. *)
Definition stale_button_trace : list Update :=
  [cmd_start 1%Z (Some "reader"%string) 0 0;
   cmd_newbook 1%Z ["A"%string] 1;
   cmd_newbook 1%Z ["B"%string] 2;
   cmd_switchbook 1%Z;
   cmd_finish 1%Z 3;
   callback_query 1%Z (switch_ 2)].

Definition stale_button_db : DB := run stale_button_trace empty_db.

Definition finished_B : Book :=
  mkBook 2 1%Z "B" [] finished 2 (Some 3) None None.

(** The reader of [dune_db] after a first note. *)
Definition noted_db : DB :=
  run [text_message 1%Z "great opening" 10%Z 2] dune_db.

Definition noted_book : Book :=
  mkBook 1 1%Z "Dune" [mkNote "great opening" text 2 10%Z None] reading 1
         None None None.

(** A reader with two books of one note each. *)
Definition tie_trace : list Update :=
  [cmd_start 1%Z (Some "reader"%string) 0 0;
   cmd_newbook 1%Z ["A"%string] 1;
   text_message 1%Z "first" 10%Z 2;
   cmd_newbook 1%Z ["B"%string] 3;
   text_message 1%Z "second" 11%Z 4].

(** A reader whose clock is set back between two [/newbook]: the book
    stored first carries the later date. *)
Definition skew_trace : list Update :=
  [cmd_start 1%Z (Some "reader"%string) 0 0;
   cmd_newbook 1%Z ["Late"%string] 9;
   text_message 1%Z "a" 1%Z 10;
   cmd_newbook 1%Z ["Early"%string] 2;
   text_message 1%Z "b" 2%Z 3].

Definition late_book : Book :=
  mkBook 1 1%Z "Late" [mkNote "a" text 10 1%Z None] reading 9 None None None.

Definition early_book : Book :=
  mkBook 2 1%Z "Early" [mkNote "b" text 3 2%Z None] reading 2 None None None.

(** ** Vocabulary of the further properties *)

(** The user an update comes from ([update.effective_user.id]). *)
Definition sender (u : Update) : option UserId :=
  match u with
  | cmd_help => None
  | cmd_start uid _ _ _ | cmd_newbook uid _ _ | cmd_mybooks uid
  | cmd_currentbook uid | cmd_switchbook uid | cmd_review uid _ _ _
  | cmd_finish uid _ | cmd_stats uid | text_message uid _ _ _
  | voice_message uid _ _ _ _ _ | callback_query uid _ => Some uid
  end.

(** The replies by which a handler returns early, before its [try] block
    and before any write. *)
Definition is_refusal (r : Reply) : bool :=
  match r with
  | provide_title | no_books_yet | no_active_book | no_active_books_found
  | no_notes_found _ | no_stats_yet => true
  | _ => false
  end.

(** A press on a switch button. *)
Definition is_switch (u : Update) : bool :=
  match u with
  | callback_query _ (switch_ _) => true
  | _ => false
  end.

(** The note a message update carries, when it carries one: a text message,
    or a voice message whose transcription succeeded (whether or not the
    result could then be reported). *)
Definition note_of (u : Update) : option (UserId * Note) :=
  match u with
  | text_message uid s mid now => Some (uid, mkNote s text now mid None)
  | voice_message uid (Some s) mid d now _ =>
      Some (uid, mkNote s voice now mid (Some d))
  | _ => None
  end.

(** Newest first. *)
Definition newest_first (books : list Book) : Prop :=
  StronglySorted (fun a b => bk_created_at b <= bk_created_at a) books.

(** A line of the [/mybooks] listing. *)
Definition listing_line (current_book_id : option ObjectId) (book : Book)
    : Status * string * bool * nat :=
  (bk_status book, bk_title book,
   match current_book_id with
   | Some c => Nat.eqb (bk_id book) c
   | None => false
   end,
   length (bk_notes book)).

(** A button of the [/switchbook] keyboard. *)
Definition button (book : Book) : string * nat * ObjectId :=
  (bk_title book, length (bk_notes book), bk_id book).

(** The two date fields of a book agree with what they date. *)
Definition dated_consistently (b : Book) : Prop :=
  (bk_status b = finished <-> bk_finished_at b <> None) /\
  (bk_ai_review b = None <-> bk_review_generated_at b = None).

(** Ids identify: no two books share an [_id], no two user records share a
    [user_id]. *)
Definition ids_unique (db : DB) : Prop :=
  NoDup (map bk_id (books_collection db)) /\
  NoDup (map usr_user_id (users_collection db)).

(** Every [current_book_id] of the store names a stored book that the
    user of the record owns and is still reading. *)
Definition pointers_own_reading (db : DB) : Prop :=
  forall u oid,
    In u (users_collection db) -> usr_current_book_id u = Some oid ->
    exists b, In b (books_collection db) /\ bk_id b = oid /\
              bk_user_id b = usr_user_id u /\ bk_status b = reading.

(** What one update of the user [who] may do to [users]: nothing, a [$set]
    of the current book or of the name and activity date on the first
    record of that user, or the insertion of a record for that user when
    there is none. *)
Inductive users_write (who : option UserId) (l : list User) : list User -> Prop :=
| uw_none : users_write who l l
| uw_pointer uid c :
    who = Some uid ->
    users_write who l (update_first (is_user uid) (set_current_book_id c) l)
| uw_seen uid name now :
    who = Some uid ->
    users_write who l
      (update_first (is_user uid) (set_username_last_active name now) l)
| uw_new uid name t1 t2 :
    who = Some uid -> find (is_user uid) l = None ->
    users_write who l (l ++ [mkUser uid name t1 t2 None]).

(** A [/start]. *)
Definition is_start (u : Update) : bool :=
  match u with
  | cmd_start _ _ _ _ => true
  | _ => false
  end.

(** The store [tie_trace] leaves: books [A] and [B] of one reader, both
    being read, [B] current. *)
Definition two_books_db : DB := run tie_trace empty_db.

(** A reader who finished book [B] and has no current book. *)
Definition finished_db : DB :=
  run [cmd_start 1%Z (Some "reader"%string) 0 0;
       cmd_newbook 1%Z ["A"%string] 1;
       cmd_newbook 1%Z ["B"%string] 2;
       cmd_finish 1%Z 3] empty_db.

(** What that reader does next, without pressing a switch button. *)
Definition later_trace : list Update :=
  [text_message 1%Z "lost" 30%Z 4;
   cmd_finish 1%Z 5;
   cmd_newbook 1%Z ["C"%string] 6;
   text_message 1%Z "kept" 31%Z 7;
   cmd_finish 1%Z 8;
   cmd_finish 1%Z 9].

(** * Facts about the collection operations *)

Section CollectionFacts.
Variable A : Type.
Implicit Types (p q : A -> bool) (f : A -> A) (l : list A).

Lemma update_first_length p f l :
  length (update_first p f l) = length l.
Proof.
  induction l as [|x r IH]; simpl; [reflexivity|].
  destruct (p x); simpl; congruence.
Qed.

Lemma update_first_no_match p f l :
  find p l = None -> update_first p f l = l.
Proof.
  induction l as [|x r IH]; simpl; [reflexivity|].
  destruct (p x); [discriminate|]. intros H; now rewrite IH.
Qed.

Lemma find_first_match p l x :
  find p l = Some x ->
  exists l1 l2, l = l1 ++ x :: l2 /\ find p l1 = None /\ p x = true.
Proof.
  induction l as [|y r IH]; simpl; [discriminate|].
  destruct (p y) eqn:Hy.
  - intros [= ->]. exists [], r. auto.
  - intros H. destruct (IH H) as (l1 & l2 & -> & H1 & H2).
    exists (y :: l1), l2. simpl. rewrite Hy. auto.
Qed.

Lemma find_app_skip p l1 l2 :
  find p l1 = None -> find p (l1 ++ l2) = find p l2.
Proof.
  induction l1 as [|y r IH]; simpl; [reflexivity|].
  destruct (p y); [discriminate|]. exact IH.
Qed.

Lemma find_app_hit p l1 l2 x :
  find p l1 = Some x -> find p (l1 ++ l2) = Some x.
Proof.
  induction l1 as [|y r IH]; simpl; [discriminate|].
  destruct (p y); [trivial|]. exact IH.
Qed.

Lemma update_first_at p f l1 x l2 :
  find p l1 = None -> p x = true ->
  update_first p f (l1 ++ x :: l2) = l1 ++ f x :: l2.
Proof.
  induction l1 as [|y r IH]; simpl; intros H Hx.
  - now rewrite Hx.
  - destruct (p y); [discriminate|]. now rewrite IH.
Qed.

Lemma find_update_first p f l :
  (forall x, p (f x) = p x) ->
  find p (update_first p f l) = option_map f (find p l).
Proof.
  intros Hf. induction l as [|x r IH]; simpl; [reflexivity|].
  destruct (p x) eqn:Hx; simpl.
  - now rewrite Hf, Hx.
  - now rewrite Hx.
Qed.

Lemma find_update_first_other p q f l :
  (forall x, q (f x) = q x) ->
  (forall x, p x = true -> q x = false) ->
  find q (update_first p f l) = find q l.
Proof.
  intros Hf Hpq. induction l as [|x r IH]; simpl; [reflexivity|].
  destruct (p x) eqn:Hx; simpl.
  - now rewrite Hf, (Hpq _ Hx).
  - now rewrite IH.
Qed.

Lemma filter_update_first_other p q f l :
  (forall x, q (f x) = q x) ->
  (forall x, p x = true -> q x = false) ->
  filter q (update_first p f l) = filter q l.
Proof.
  intros Hf Hpq. induction l as [|x r IH]; simpl; [reflexivity|].
  destruct (p x) eqn:Hx; simpl.
  - now rewrite Hf, (Hpq _ Hx).
  - now rewrite IH.
Qed.

Lemma count_update_first p q f l :
  (forall x, q (f x) = q x) ->
  length (filter q (update_first p f l)) = length (filter q l).
Proof.
  intros Hf. induction l as [|x r IH]; simpl; [reflexivity|].
  destruct (p x); simpl.
  - rewrite Hf. now destruct (q x).
  - destruct (q x); simpl; congruence.
Qed.

Lemma existsb_find p l : existsb p l = false <-> find p l = None.
Proof.
  induction l as [|x r IH]; simpl; [tauto|].
  destruct (p x); simpl; [split; discriminate | exact IH].
Qed.

Lemma filter_no_match p l : find p l = None -> filter p l = [].
Proof.
  induction l as [|x r IH]; simpl; [reflexivity|].
  destruct (p x); [discriminate | exact IH].
Qed.

Lemma map_update_first B (g : A -> B) p f l :
  (forall x, g (f x) = g x) -> map g (update_first p f l) = map g l.
Proof.
  intros Hf. induction l as [|x r IH]; simpl; [reflexivity|].
  destruct (p x); simpl; congruence.
Qed.
End CollectionFacts.

(** Identifiers of documents. *)

Lemma list_max_ge (l : list nat) n : In n l -> n <= list_max l.
Proof.
  induction l as [|m r IH]; simpl; [tauto|].
  intros [->|H]; [lia|]. specialize (IH H). lia.
Qed.

Lemma new_ObjectId_fresh (books : list Book) :
  find (has_id (new_ObjectId books)) books = None.
Proof.
  destruct (find _ books) as [b|] eqn:H; [|reflexivity].
  apply find_some in H. destruct H as [Hin Hb].
  unfold has_id in Hb. apply Nat.eqb_eq in Hb.
  assert (bk_id b <= list_max (map bk_id books))
    by (apply list_max_ge, in_map, Hin).
  unfold new_ObjectId in Hb. lia.
Qed.

Lemma is_user_set_current uid c u : is_user uid (set_current_book_id c u) = is_user uid u.
Proof. reflexivity. Qed.

Lemma is_user_set_name uid n t u :
  is_user uid (set_username_last_active n t u) = is_user uid u.
Proof. reflexivity. Qed.

Lemma has_id_push oid n b : has_id oid (push_note n b) = has_id oid b.
Proof. reflexivity. Qed.

Lemma has_id_set_review oid r t b : has_id oid (set_review r t b) = has_id oid b.
Proof. reflexivity. Qed.

Lemma has_id_set_finished oid t b : has_id oid (set_finished t b) = has_id oid b.
Proof. reflexivity. Qed.

(** Unfolding a handler down to the lists. *)
Ltac unfold_db :=
  cbv [exec eval bind ret get_current_book users_find_one books_find_one
       books_find users_update_one users_upsert books_update_one
       books_insert_one fst snd users_collection books_collection] in *.

Lemma eval_users_find_one uid db :
  eval (users_find_one uid) db = find (is_user uid) (users_collection db).
Proof. reflexivity. Qed.

Lemma eval_books_find_one oid db :
  eval (books_find_one oid) db = find (has_id oid) (books_collection db).
Proof. reflexivity. Qed.

Lemma eval_get_current_book uid db :
  eval (get_current_book uid) db =
  match find (is_user uid) (users_collection db) with
  | Some u =>
      match usr_current_book_id u with
      | Some oid => find (has_id oid) (books_collection db)
      | None => None
      end
  | None => None
  end.
Proof.
  unfold_db. destruct (find _ (let (u, _) := db in u)) as [u|]; [|reflexivity].
  now destruct (usr_current_book_id u).
Qed.


(** * ensureUser ([start_command]) *)

Lemma find_some_count A (p : A -> bool) l x :
  find p l = Some x -> 1 <= length (filter p l).
Proof.
  induction l as [|y r IH]; simpl; [discriminate|].
  destruct (p y); simpl; [lia | exact IH].
Qed.

Lemma filter_app_one A (p : A -> bool) l x :
  filter p (l ++ [x]) = filter p l ++ (if p x then [x] else []).
Proof. rewrite filter_app. reflexivity. Qed.

Lemma is_user_refl uid n t1 t2 c : is_user uid (mkUser uid n t1 t2 c) = true.
Proof. apply Z.eqb_refl. Qed.

Lemma start_command_step db uid name t1 t2 :
  let db' := exec (start_command uid name t1 t2) db in
  let users := users_collection db in
  books_collection db' = books_collection db /\
  filter (fun u => negb (is_user uid u)) (users_collection db') =
    filter (fun u => negb (is_user uid u)) users /\
  length (filter (is_user uid) (users_collection db')) =
    Nat.max 1 (length (filter (is_user uid) users)) /\
  find (is_user uid) (users_collection db') =
    Some match find (is_user uid) users with
         | Some u => set_username_last_active (or_Anonymous name) t1 u
         | None => mkUser uid (or_Anonymous name) t1 t2 None
         end.
Proof.
  unfold start_command; unfold_db; destruct db as [users books]; simpl.
  unfold upsert_first.
  destruct (existsb (is_user uid) users) eqn:E.
  - destruct (find (is_user uid) users) as [u|] eqn:F.
    2:{ apply existsb_find in F. congruence. }
    repeat split.
    + apply filter_update_first_other; [reflexivity|].
      intros x Hx. now rewrite Hx.
    + rewrite count_update_first by reflexivity.
      apply find_some_count in F.
      destruct (length (filter (is_user uid) users)); [lia | reflexivity].
    + rewrite find_update_first by reflexivity. now rewrite F.
  - apply existsb_find in E. rewrite E.
    repeat split.
    + rewrite filter_app_one, is_user_refl. simpl. apply app_nil_r.
    + rewrite filter_app_one, is_user_refl, (filter_no_match _ _ E). reflexivity.
    + rewrite (find_app_skip _ _ _ E). simpl. now rewrite is_user_refl.
Qed.

Lemma update_first_twice A (p : A -> bool) f l :
  (forall x, p (f x) = p x) -> (forall x, f (f x) = f x) ->
  update_first p f (update_first p f l) = update_first p f l.
Proof.
  intros Hp Hf. induction l as [|x r IH]; simpl; [reflexivity|].
  destruct (p x) eqn:Hx; simpl.
  - now rewrite Hp, Hx, Hf.
  - now rewrite Hx, IH.
Qed.

Lemma start_command_twice db uid name t1 t2 :
  exec (start_command uid name t1 t2) (exec (start_command uid name t1 t2) db) =
  exec (start_command uid name t1 t2) db.
Proof.
  unfold start_command; unfold_db; destruct db as [users books]; simpl.
  f_equal. unfold upsert_first.
  destruct (existsb (is_user uid) users) eqn:E.
  - assert (E' : existsb (is_user uid)
             (update_first (is_user uid)
                (set_username_last_active (or_Anonymous name) t1) users) = true).
    { destruct (existsb _ (update_first _ _ _)) eqn:E'; [reflexivity|].
      apply existsb_find in E'. rewrite find_update_first in E' by reflexivity.
      destruct (find (is_user uid) users) eqn:F; [discriminate|].
      apply existsb_find in F. congruence. }
    rewrite E'. apply update_first_twice; reflexivity.
  - rewrite existsb_app. simpl. rewrite is_user_refl, orb_true_r.
    apply existsb_find in E.
    rewrite update_first_at by (trivial || apply is_user_refl). reflexivity.
Qed.

Lemma last_cons_default A (x : A) l d : last (x :: l) d = last l x.
Proof.
  revert x d. induction l as [|y r IH]; intros x d; [reflexivity|].
  change (last (x :: y :: r) d) with (last (y :: r) d).
  now rewrite (IH y d), (IH y x).
Qed.

(** C7. [ensureUser] ([start_command]) is idempotent. After one or more
    calls for the same user id, however many: the books and the other
    users' records are as before; the number of records of that id is the
    number before, or one if there was none (so never a duplicate); the
    record carries the display name and [last_active] of the last call; its
    [current_book_id] and [created_at] are those of the record that was
    already there, or [None] and the first call's reading for a record
    created by these calls. Repeating a call with the same arguments
    changes nothing more. *)
Theorem ensureUser_idempotent db uid c calls :
  let db' := run (ensureUser_calls uid (c :: calls)) db in
  let final := last calls c in
  let count d := length (filter (is_user uid) (users_collection d)) in
  books_collection db' = books_collection db /\
  filter (fun u => negb (is_user uid u)) (users_collection db') =
    filter (fun u => negb (is_user uid u)) (users_collection db) /\
  count db' = Nat.max 1 (count db) /\
  (exists u',
     eval (users_find_one uid) db' = Some u' /\
     usr_username u' = or_Anonymous (fst (fst final)) /\
     usr_last_active u' = snd (fst final) /\
     match eval (users_find_one uid) db with
     | Some u => usr_current_book_id u' = usr_current_book_id u /\
                 usr_created_at u' = usr_created_at u
     | None => usr_current_book_id u' = None /\ usr_created_at u' = snd c
     end) /\
  run (ensureUser_calls uid [final]) db' = db'.
Proof.
  revert db c. induction calls as [|c2 calls IH]; intros db c.
  - cbn [ensureUser_calls map run last dispatch].
    destruct c as [[name t1] t2]. cbn [fst snd].
    pose proof (start_command_step db uid name t1 t2) as (Hb & Ho & Hc & Hf).
    cbv zeta in *. repeat split; trivial.
    + rewrite !eval_users_find_one, Hf.
      eexists; split; [reflexivity|].
      destruct (find (is_user uid) (users_collection db)); simpl; auto.
    + apply start_command_twice.
  - change (run (ensureUser_calls uid (c :: c2 :: calls)) db)
      with (run (ensureUser_calls uid (c2 :: calls))
                (exec (start_command uid (fst (fst c)) (snd (fst c)) (snd c)) db)).
    rewrite (last_cons_default c2 calls c).
    destruct c as [[name t1] t2]. cbn [fst snd].
    pose proof (start_command_step db uid name t1 t2) as (Hb & Ho & Hc & Hf).
    cbv zeta in *.
    specialize (IH (exec (start_command uid name t1 t2) db) c2).
    cbv zeta in IH. destruct IH as (Ib & Io & Ic & (u' & Iu & In1 & In2 & Im) & Ii).
    repeat split; try congruence.
    + rewrite Ic, Hc. lia.
    + exists u'. repeat split; trivial.
      rewrite eval_users_find_one, Hf in Im. rewrite eval_users_find_one.
      destruct (find (is_user uid) (users_collection db)); simpl in *; auto.
Qed.

(** * The current book *)

Lemma has_id_eq oid b : has_id oid b = true -> bk_id b = oid.
Proof. apply Nat.eqb_eq. Qed.

Lemma current_book_located uid db b :
  eval (get_current_book uid) db = Some b ->
  exists u before after,
    find (is_user uid) (users_collection db) = Some u /\
    usr_current_book_id u = Some (bk_id b) /\
    books_collection db = before ++ b :: after /\
    find (has_id (bk_id b)) before = None.
Proof.
  rewrite eval_get_current_book.
  destruct (find (is_user uid) _) as [u|]; [|discriminate].
  destruct (usr_current_book_id u) as [oid|] eqn:C; [|discriminate].
  intros F. destruct (find_first_match _ _ F) as (l1 & l2 & E & N & H).
  apply has_id_eq in H. subst oid. exists u, l1, l2. auto.
Qed.

Lemma current_book_found uid db b :
  eval (get_current_book uid) db = Some b ->
  eval (books_find_one (bk_id b)) db = Some b.
Proof.
  intros H. destruct (current_book_located _ _ H) as (u & l1 & l2 & _ & _ & E & N).
  rewrite eval_books_find_one, E, (find_app_skip _ _ _ N). simpl.
  unfold has_id. now rewrite Nat.eqb_refl.
Qed.

(** * appendNote ([handle_text_note], [handle_voice_note]) *)

Lemma push_only_appends db b note :
  eval (books_find_one (bk_id b)) db = Some b ->
  only_appends note b db (exec (books_update_one (bk_id b) (push_note note)) db).
Proof.
  rewrite eval_books_find_one. intros F.
  destruct (find_first_match _ _ F) as (l1 & l2 & E & N & H).
  split; [reflexivity|].
  exists l1, l2, (push_note note b). split; [exact E|]. split.
  - unfold_db. destruct db as [users books]; simpl in *. subst books.
    now apply update_first_at.
  - simpl. repeat split.
Qed.

Lemma handle_text_note_run db uid txt mid now :
  handle_text_note uid txt mid now db =
  match eval (get_current_book uid) db with
  | Some b => (note_saved (bk_title b),
               exec (books_update_one (bk_id b)
                       (push_note (mkNote txt text now mid None))) db)
  | None => (no_active_book, db)
  end.
Proof.
  unfold handle_text_note, bind at 1, eval.
  destruct (get_current_book uid db) as [[b|] db1] eqn:G; simpl;
    assert (db1 = db) by
      (revert G; unfold_db;
       destruct (find _ (let (u, _) := db in u)) as [u|];
       [destruct (usr_current_book_id u)|]; congruence);
    subst db1; reflexivity.
Qed.

Lemma handle_voice_note_run db uid tr mid dur now sent :
  handle_voice_note uid tr mid dur now sent db =
  match eval (get_current_book uid) db, tr with
  | Some b, Some txt =>
      (if sent then voice_note_saved (bk_title b) txt else voice_note_failed,
       exec (books_update_one (bk_id b)
               (push_note (mkNote txt voice now mid (Some dur)))) db)
  | Some b, None => (voice_note_failed, db)
  | None, _ => (no_active_book, db)
  end.
Proof.
  unfold handle_voice_note, bind at 1, eval.
  destruct (get_current_book uid db) as [[b|] db1] eqn:G; simpl;
    assert (db1 = db) by
      (revert G; unfold_db;
       destruct (find _ (let (u, _) := db in u)) as [u|];
       [destruct (usr_current_book_id u)|]; congruence);
    subst db1; [destruct tr; [destruct sent|]|]; reflexivity.
Qed.

(** C10. A successful [appendNote], text or voice, is one [$push] on the
    current book: the store after it is the store before it with that
    single update applied; the users (and so the user's [current_book_id])
    are unchanged; every other book is unchanged; the current book has the
    one new note at the end of its notes and the same title, status,
    [created_at], [finished_at] and review fields. For a voice note this is
    so whether or not the acknowledgement could then be sent. *)
Theorem appendNote_frame db uid b content message_id voice_duration now sent :
  eval (get_current_book uid) db = Some b ->
  let text_note := mkNote content text now message_id None in
  let voice_note := mkNote content voice now message_id (Some voice_duration) in
  let text_run := handle_text_note uid content message_id now db in
  let voice_run :=
    handle_voice_note uid (Some content) message_id voice_duration now sent db in
  (fst text_run = note_saved (bk_title b) /\
   snd text_run = exec (books_update_one (bk_id b) (push_note text_note)) db /\
   only_appends text_note b db (snd text_run)) /\
  (fst voice_run =
     (if sent then voice_note_saved (bk_title b) content else voice_note_failed) /\
   snd voice_run = exec (books_update_one (bk_id b) (push_note voice_note)) db /\
   only_appends voice_note b db (snd voice_run)).
Proof.
  intros G. cbv zeta.
  rewrite handle_text_note_run, handle_voice_note_run, G. cbn [fst snd].
  pose proof (current_book_found _ _ G) as F.
  split; (split; [reflexivity | split; [reflexivity |]]);
    apply push_only_appends; exact F.
Qed.

Lemma appendNote_frame_witness :
  eval (get_current_book 1%Z) dune_db = Some dune_book /\
  only_appends (mkNote "great opening" text 2 10%Z None) dune_book dune_db
    (snd (handle_text_note 1%Z "great opening" 10%Z 2 dune_db)).
Proof.
  split; [reflexivity|].
  exact (proj2 (proj2 (proj1
    (@appendNote_frame dune_db 1%Z dune_book "great opening" 10%Z 0 2 true
       eq_refl)))).
Defined.

Lemma get_current_book_pure uid db :
  get_current_book uid db = (eval (get_current_book uid) db, db).
Proof.
  unfold_db. destruct (find _ (let (u, _) := db in u)) as [u|]; [|reflexivity].
  now destruct (usr_current_book_id u).
Qed.

Lemma current_book_after_update uid db b f :
  (forall x, has_id (bk_id b) (f x) = has_id (bk_id b) x) ->
  eval (get_current_book uid) db = Some b ->
  eval (get_current_book uid) (exec (books_update_one (bk_id b) f) db) = Some (f b).
Proof.
  intros Hf G.
  destruct (current_book_located _ _ G) as (u & l1 & l2 & U & C & _ & _).
  apply current_book_found in G. rewrite eval_books_find_one in G.
  rewrite eval_get_current_book.
  change (users_collection (exec (books_update_one (bk_id b) f) db))
    with (users_collection db).
  rewrite U, C.
  change (books_collection (exec (books_update_one (bk_id b) f) db))
    with (update_first (has_id (bk_id b)) f (books_collection db)).
  now rewrite find_update_first, G.
Qed.

(** C3, what fails. In the store a stale switch button leaves, the current
    book of the reader is the finished book [B]; a text note and a voice
    note sent then are both saved to it and acknowledged. *)
Lemma appendNote_finished_counterexample :
  eval (get_current_book 1%Z) stale_button_db = Some finished_B /\
  bk_status finished_B = finished /\
  handle_text_note 1%Z "late" 7%Z 4 stale_button_db <>
    (no_active_book, stale_button_db) /\
  eval (handle_text_note 1%Z "late" 7%Z 4) stale_button_db = note_saved "B" /\
  option_map bk_notes
    (eval (books_find_one 2)
       (exec (handle_text_note 1%Z "late" 7%Z 4) stale_button_db)) =
    Some [mkNote "late" text 4 7%Z None] /\
  eval (handle_voice_note 1%Z (Some "late"%string) 8%Z 5 4 true) stale_button_db =
    voice_note_saved "B" "late" /\
  option_map bk_notes
    (eval (books_find_one 2)
       (exec (handle_voice_note 1%Z (Some "late"%string) 8%Z 5 4 true)
          stale_button_db)) =
    Some [mkNote "late" voice 4 8%Z (Some 5)].
Proof.
  repeat split; try reflexivity. vm_compute. discriminate.
Qed.

(** C3, as the code has it. [appendNote] does not look at the status: when
    the user's [current_book_id] resolves to a finished book, a text note
    and a transcribed voice note are appended to that book and acknowledged
    (the voice note, when the acknowledgement can be sent); the book stays
    finished and stays the current book. [appendNote] answers "no active
    book" exactly when no current book resolves, and then writes nothing. *)
Theorem appendNote_to_finished_book db uid content message_id voice_duration now sent :
  let text_note := mkNote content text now message_id None in
  let voice_note := mkNote content voice now message_id (Some voice_duration) in
  let text_h := handle_text_note uid content message_id now in
  let voice_h transcript :=
    handle_voice_note uid transcript message_id voice_duration now sent in
  (forall b,
     eval (get_current_book uid) db = Some b -> bk_status b = finished ->
     (eval text_h db = note_saved (bk_title b) /\
      eval (get_current_book uid) (exec text_h db) = Some (push_note text_note b) /\
      bk_notes (push_note text_note b) = bk_notes b ++ [text_note] /\
      bk_status (push_note text_note b) = finished) /\
     (eval (voice_h (Some content)) db =
        (if sent then voice_note_saved (bk_title b) content
         else voice_note_failed) /\
      eval (get_current_book uid) (exec (voice_h (Some content)) db) =
        Some (push_note voice_note b) /\
      bk_notes (push_note voice_note b) = bk_notes b ++ [voice_note] /\
      bk_status (push_note voice_note b) = finished)) /\
  (eval text_h db = no_active_book <-> eval (get_current_book uid) db = None) /\
  (forall transcript,
     eval (voice_h transcript) db = no_active_book <->
     eval (get_current_book uid) db = None) /\
  (eval (get_current_book uid) db = None ->
   text_h db = (no_active_book, db) /\
   forall transcript, voice_h transcript db = (no_active_book, db)).
Proof.
  cbv zeta. split; [|split; [|split]].
  - intros b G S. unfold eval at 1 3, exec at 1 2.
    rewrite handle_text_note_run, handle_voice_note_run, G. cbn [fst snd].
    repeat split; trivial;
      apply current_book_after_update; trivial; reflexivity.
  - unfold eval at 1. rewrite handle_text_note_run.
    destruct (eval (get_current_book uid) db); cbn [fst];
      split; trivial; discriminate.
  - intros transcript. unfold eval at 1. rewrite handle_voice_note_run.
    destruct (eval (get_current_book uid) db); [|split; trivial].
    destruct transcript; [destruct sent|]; cbn [fst]; split; discriminate.
  - intros G. rewrite handle_text_note_run, G. split; [reflexivity|].
    intros transcript. now rewrite handle_voice_note_run, G.
Qed.

Lemma appendNote_to_finished_book_witness :
  eval (get_current_book 1%Z) stale_button_db = Some finished_B /\
  bk_status finished_B = finished /\
  eval (get_current_book 1%Z)
    (exec (handle_text_note 1%Z "late" 7%Z 4) stale_button_db) =
    Some (push_note (mkNote "late" text 4 7%Z None) finished_B).
Proof.
  split; [reflexivity|]. split; [reflexivity|].
  exact (proj1 (proj2 (proj1
    (proj1 (@appendNote_to_finished_book stale_button_db 1%Z "late" 7%Z 0 4 true)
       finished_B eq_refl eq_refl)))).
Defined.

(** * What an update writes to [books] *)

Lemma dispatch_books_write u db :
  books_write (clock_readings u) (books_collection db)
    (books_collection (exec (dispatch u) db)).
Proof.
  destruct u; cbn [dispatch clock_readings].
  - apply bw_none.
  - apply bw_none.
  - unfold new_book_command. destruct args; [apply bw_none|].
    unfold_db. destruct db as [users books]. apply bw_insert. now left.
  - unfold my_books_command. unfold_db. destruct db as [users books].
    destruct (filter _ books); apply bw_none.
  - unfold current_book_command, exec, bind.
    rewrite get_current_book_pure.
    destruct (eval (get_current_book user_id) db); apply bw_none.
  - unfold switch_book_command. unfold_db. destruct db as [users books].
    destruct (sort_created_desc _) as [|? [|? ?]]; apply bw_none.
  - unfold generate_review_command, exec, bind.
    rewrite get_current_book_pure.
    destruct (eval (get_current_book user_id) db) as [b|]; [|apply bw_none].
    destruct (bk_notes b); [apply bw_none|].
    destruct (generate_ai_review _ _ _); [|apply bw_none].
    destruct sent; unfold_db; destruct db as [users books]; apply bw_review.
  - unfold finish_book_command, exec, bind.
    rewrite get_current_book_pure.
    destruct (eval (get_current_book user_id) db) as [b|]; [|apply bw_none].
    unfold_db. destruct db as [users books]. apply bw_finish.
  - unfold stats_command. unfold_db. destruct db as [users books].
    destruct (filter _ books); apply bw_none.
  - unfold exec. rewrite handle_text_note_run.
    destruct (eval (get_current_book user_id) db) as [b|]; [|apply bw_none].
    unfold_db. destruct db as [users books]. apply bw_push.
  - unfold exec. rewrite handle_voice_note_run.
    destruct (eval (get_current_book user_id) db) as [b|]; [|apply bw_none].
    destruct transcript; [|apply bw_none].
    unfold_db. destruct db as [users books]. apply bw_push.
  - unfold handle_callback_query. destruct data; try apply bw_none.
    unfold_db. destruct db as [users books]. cbn.
    destruct (find _ books); apply bw_none.
Qed.

(** * Books only grow *)

Lemma book_grows_refl b : book_grows b b.
Proof.
  repeat split; trivial. exists []. now rewrite app_nil_r.
Qed.

Lemma book_grows_trans b1 b2 b3 :
  book_grows b1 b2 -> book_grows b2 b3 -> book_grows b1 b3.
Proof.
  intros (I1 & U1 & T1 & C1 & (m1 & N1) & S1) (I2 & U2 & T2 & C2 & (m2 & N2) & S2).
  repeat split; try congruence; auto.
  exists (m1 ++ m2). now rewrite N2, N1, app_assoc.
Qed.

Lemma Forall2_book_grows_refl l : Forall2 book_grows l l.
Proof. induction l; constructor; auto using book_grows_refl. Qed.

Lemma Forall2_book_grows_trans l1 l2 l3 :
  Forall2 book_grows l1 l2 -> Forall2 book_grows l2 l3 -> Forall2 book_grows l1 l3.
Proof.
  intros H. revert l3. induction H; intros l3 H3; inversion H3; subst;
    constructor; eauto using book_grows_trans.
Qed.

Lemma update_first_grows p f l :
  (forall b, book_grows b (f b)) -> Forall2 book_grows l (update_first p f l).
Proof.
  intros Hf. induction l as [|x r IH]; simpl; [constructor|].
  destruct (p x); constructor; auto using Forall2_book_grows_refl, book_grows_refl.
Qed.

Lemma push_note_grows n b : book_grows b (push_note n b).
Proof. repeat split; simpl; eauto. Qed.

Lemma set_review_grows r t b : book_grows b (set_review r t b).
Proof. repeat split; simpl; trivial. exists []. now rewrite app_nil_r. Qed.

Lemma set_finished_grows t b : book_grows b (set_finished t b).
Proof. repeat split; simpl; trivial. exists []. now rewrite app_nil_r. Qed.

Lemma books_grow_refl l : books_grow l l.
Proof.
  exists l, []. split; [now rewrite app_nil_r | apply Forall2_book_grows_refl].
Qed.

Lemma books_grow_trans l1 l2 l3 :
  books_grow l1 l2 -> books_grow l2 l3 -> books_grow l1 l3.
Proof.
  intros (o1 & i1 & -> & F1) (o2 & i2 & -> & F2).
  apply Forall2_app_inv_l in F2. destruct F2 as (a & b & Fa & Fb & ->).
  exists a, (b ++ i2). split; [now rewrite app_assoc|].
  eapply Forall2_book_grows_trans; eauto.
Qed.

Lemma books_write_grow ts l l' : books_write ts l l' -> books_grow l l'.
Proof.
  intros [ | oid n | oid r t | oid t | uid title now _].
  - apply books_grow_refl.
  - exists (update_first (has_id oid) (push_note n) l), [].
    split; [now rewrite app_nil_r|]. apply update_first_grows, push_note_grows.
  - exists (update_first (has_id oid) (set_review r t) l), [].
    split; [now rewrite app_nil_r|]. apply update_first_grows, set_review_grows.
  - exists (update_first (has_id oid) (set_finished t) l), [].
    split; [now rewrite app_nil_r|]. apply update_first_grows, set_finished_grows.
  - eexists l, _. split; [reflexivity | apply Forall2_book_grows_refl].
Qed.

Lemma run_books_grow us db :
  books_grow (books_collection db) (books_collection (run us db)).
Proof.
  revert db. induction us as [|u us IH]; intros db; simpl.
  - apply books_grow_refl.
  - eapply books_grow_trans; [|apply IH].
    eapply books_write_grow, dispatch_books_write.
Qed.

Lemma books_grow_nth l l' i b :
  books_grow l l' -> nth_error l i = Some b ->
  exists b', nth_error l' i = Some b' /\ book_grows b b'.
Proof.
  intros (old & ins & -> & F). revert i.
  induction F as [|x y l old Hxy F IH]; intros i; destruct i; simpl; try discriminate.
  - intros [= ->]. eauto.
  - apply IH.
Qed.

(** * finishCurrentBook ([finish_book_command]) *)

Lemma finish_book_command_run db uid now :
  finish_book_command uid now db =
  match eval (get_current_book uid) db with
  | Some b =>
      (marked_as_finished (bk_title b) (length (bk_notes b)),
       exec (users_update_one uid (set_current_book_id None))
            (exec (books_update_one (bk_id b) (set_finished now)) db))
  | None => (no_active_book, db)
  end.
Proof.
  unfold finish_book_command, bind at 1.
  rewrite get_current_book_pure.
  now destruct (eval (get_current_book uid) db).
Qed.

Lemma current_book_cleared uid db :
  eval (get_current_book uid)
    (exec (users_update_one uid (set_current_book_id None)) db) = None.
Proof.
  rewrite eval_get_current_book.
  change (users_collection (exec (users_update_one uid (set_current_book_id None)) db))
    with (update_first (is_user uid) (set_current_book_id None) (users_collection db)).
  rewrite find_update_first by reflexivity.
  now destruct (find (is_user uid) (users_collection db)).
Qed.

(** C2. [finishCurrentBook] ([finish_book_command]). Without a current
    book it answers "no active book" and writes nothing. With a current
    book [b] it first sets [status = finished] and [finished_at = now] on
    [b], then sets the user's [current_book_id] to [None]; after that the
    user has no current book, so a second call answers "no active book"
    and writes nothing. And whatever updates are dispatched afterwards, a
    stored book that is finished is still at its place, with its id, and
    finished. *)
Theorem finishCurrentBook_one_way db uid now :
  match eval (get_current_book uid) db with
  | None => finish_book_command uid now db = (no_active_book, db)
  | Some b =>
      let db1 := exec (books_update_one (bk_id b) (set_finished now)) db in
      let db2 := exec (users_update_one uid (set_current_book_id None)) db1 in
      finish_book_command uid now db =
        (marked_as_finished (bk_title b) (length (bk_notes b)), db2) /\
      eval (books_find_one (bk_id b)) db2 = Some (set_finished now b) /\
      bk_status (set_finished now b) = finished /\
      bk_finished_at (set_finished now b) = Some now /\
      (exists u, eval (users_find_one uid) db2 = Some u /\
                 usr_current_book_id u = None) /\
      eval (get_current_book uid) db2 = None /\
      forall now', finish_book_command uid now' db2 = (no_active_book, db2)
  end /\
  forall us i b,
    nth_error (books_collection db) i = Some b -> bk_status b = finished ->
    exists b', nth_error (books_collection (run us db)) i = Some b' /\
               bk_id b' = bk_id b /\ bk_status b' = finished.
Proof.
  split.
  - rewrite finish_book_command_run.
    destruct (eval (get_current_book uid) db) as [b|] eqn:G; [|reflexivity].
    cbv zeta.
    destruct (current_book_located _ _ G) as (u & l1 & l2 & U & C & _ & _).
    pose proof (current_book_found _ _ G) as F.
    rewrite eval_books_find_one in F.
    repeat split.
    + rewrite eval_books_find_one.
      change (find (has_id (bk_id b))
                (update_first (has_id (bk_id b)) (set_finished now)
                   (books_collection db)) = Some (set_finished now b)).
      now rewrite find_update_first, F.
    + exists (set_current_book_id None u). split; [|reflexivity].
      rewrite eval_users_find_one.
      change (find (is_user uid)
                (update_first (is_user uid) (set_current_book_id None)
                   (users_collection db)) = Some (set_current_book_id None u)).
      now rewrite find_update_first, U.
    + apply current_book_cleared.
    + intros now'. rewrite finish_book_command_run.
      now rewrite current_book_cleared.
  - intros us i b N S.
    destruct (books_grow_nth _ (run_books_grow us db) N) as (b' & N' & G).
    exists b'. destruct G as (I & _ & _ & _ & _ & K). auto.
Qed.

Lemma finishCurrentBook_one_way_witness :
  nth_error (books_collection stale_button_db) 1 = Some finished_B /\
  bk_status finished_B = finished /\
  exists b',
    nth_error (books_collection
                 (run [text_message 1%Z "late" 7%Z 4; cmd_finish 1%Z 9;
                       cmd_newbook 1%Z ["C"%string] 10] stale_button_db)) 1 = Some b' /\
    bk_id b' = bk_id finished_B /\ bk_status b' = finished.
Proof.
  split; [reflexivity|]. split; [reflexivity|].
  exact (proj2 (finishCurrentBook_one_way stale_button_db 1%Z 0) _ 1 finished_B
           eq_refl eq_refl).
Defined.

(** * startBook ([new_book_command]) *)

Lemma new_book_command_run db uid a args now :
  new_book_command uid (a :: args) now db =
  (started_tracking (join " " (a :: args)),
   mkDB (update_first (is_user uid)
           (set_current_book_id (Some (new_ObjectId (books_collection db))))
           (users_collection db))
        (books_collection db ++
           [mkBook (new_ObjectId (books_collection db)) uid (join " " (a :: args))
                   [] reading now None None None])).
Proof. destruct db; reflexivity. Qed.

Lemma find_last_fresh (books : list Book) b :
  bk_id b = new_ObjectId books ->
  find (has_id (bk_id b)) (books ++ [b]) = Some b.
Proof.
  intros E. rewrite find_app_skip.
  - simpl. unfold has_id. now rewrite Nat.eqb_refl.
  - rewrite E. apply new_ObjectId_fresh.
Qed.

Lemma new_book_command_step db uid c :
  registered uid db -> fst c <> [] ->
  let db' := exec (new_book_command uid (fst c) (snd c)) db in
  exists b,
    books_collection db' = books_collection db ++ [b] /\
    started_by uid c b /\
    bk_id b = new_ObjectId (books_collection db) /\
    eval (new_book_command uid (fst c) (snd c)) db = started_tracking (bk_title b) /\
    eval (get_current_book uid) db' = Some b /\
    registered uid db'.
Proof.
  destruct c as [[|a args] now]; cbn [fst snd]; intros R A; [congruence|].
  pose proof (f_equal snd (new_book_command_run db uid a args now)) as X.
  pose proof (f_equal fst (new_book_command_run db uid a args now)) as Y.
  cbn [fst snd] in X, Y.
  fold (exec (new_book_command uid (a :: args) now) db) in X.
  fold (eval (new_book_command uid (a :: args) now) db) in Y.
  cbv zeta. rewrite X, Y.
  eexists. split; [reflexivity|]. split; [repeat split|].
  split; [reflexivity|]. split; [reflexivity|].
  unfold registered in *. rewrite eval_users_find_one in R.
  rewrite eval_get_current_book, eval_users_find_one. cbn [users_collection books_collection].
  rewrite find_update_first by reflexivity.
  destruct (find (is_user uid) (users_collection db)) as [u|]; [|congruence].
  cbn [option_map set_current_book_id usr_current_book_id].
  split; [|discriminate].
  match goal with
  | |- find _ (_ ++ [?b]) = _ => exact (@find_last_fresh _ b eq_refl)
  end.
Qed.

Lemma find_app_none_l A (p : A -> bool) l1 l2 :
  find p (l1 ++ l2) = None -> find p l1 = None.
Proof.
  induction l1 as [|x r IH]; simpl; [reflexivity|].
  destruct (p x); [discriminate | exact IH].
Qed.

(** C1, on the code. A user without a record in [users] sends
    [/newbook Dune]: the book is inserted and announced as the active
    book, but the [update_one] that should set it as the current book has
    no document to match and, unlike the one of [/start], does not upsert:
    no [current_book_id] is written, [get_current_book] returns nothing and
    the next note is refused for want of an active book. *)
Lemma startBook_unregistered_counterexample :
  let db' := run (startBook_calls 7%Z [(["Dune"%string], 100)]) empty_db in
  replies (startBook_calls 7%Z [(["Dune"%string], 100)]) empty_db =
    [started_tracking "Dune"] /\
  books_collection db' = [mkBook 1 7%Z "Dune" [] reading 100 None None None] /\
  eval (get_current_book 7%Z) db' = None /\
  eval (handle_text_note 7%Z "great opening" 1%Z 101) db' = no_active_book.
Proof. repeat split. Qed.

(** [startBook] for a user who has a record in [users], and every sequence
    of calls with a title: the books of the
    store afterwards are the books before, untouched, followed by one new
    book per call, in order, each owned by the user, reading, without notes,
    with an id no earlier book has; every book the user could list before is
    still listed; each call announces its book; after the Nth call
    [getCurrentBook] returns exactly the Nth created book. *)
Theorem startBook_makes_current db uid calls :
  registered uid db ->
  Forall (fun c => fst c <> []) calls ->
  let db' := run (startBook_calls uid calls) db in
  exists created,
    books_collection db' = books_collection db ++ created /\
    Forall2 (started_by uid) calls created /\
    (forall b, In b created ->
       eval (books_find_one (bk_id b)) db = None) /\
    NoDup (map bk_id created) /\
    (forall b, In b (eval (books_find (owned_by uid)) db) ->
       In b (eval (books_find (owned_by uid)) db')) /\
    replies (startBook_calls uid calls) db =
      map (fun b => started_tracking (bk_title b)) created /\
    (forall n b, nth_error created n = Some b ->
       eval (get_current_book uid)
            (run (startBook_calls uid (firstn (S n) calls)) db) = Some b).
Proof.
  intros R A. revert db R. induction A as [|c calls Hc A IH]; intros db R.
  - exists []. cbn. rewrite app_nil_r.
    split; [reflexivity|]. split; [constructor|]. split; [intros b []|].
    split; [constructor|]. split; [auto|]. split; [reflexivity|].
    intros [|n] b; discriminate.
  - destruct (new_book_command_step c R Hc) as (b1 & B1 & S1 & I1 & E1 & G1 & R1).
    cbv zeta in *.
    destruct (IH _ R1) as (created & B & St & Fr & ND & En & Re & Cur).
    change (run (startBook_calls uid (c :: calls)) db)
      with (run (startBook_calls uid calls)
                (exec (new_book_command uid (fst c) (snd c)) db)).
    exists (b1 :: created). repeat split.
    + rewrite B, B1, <- app_assoc. reflexivity.
    + now constructor.
    + intros b [<-|Hb].
      * rewrite eval_books_find_one, I1. apply new_ObjectId_fresh.
      * specialize (Fr b Hb). rewrite eval_books_find_one, B1 in Fr.
        rewrite eval_books_find_one. eapply find_app_none_l, Fr.
    + cbn [map]. constructor; [|exact ND].
      intros Hin. apply in_map_iff in Hin. destruct Hin as (b & Eb & Hb).
      specialize (Fr b Hb). rewrite eval_books_find_one, B1 in Fr.
      rewrite find_app_skip in Fr by (eapply find_app_none_l, Fr).
      simpl in Fr. unfold has_id in Fr. rewrite Eb, Nat.eqb_refl in Fr.
      discriminate.
    + intros b Hb. apply En.
      change (In b (filter (owned_by uid) (books_collection db))) in Hb.
      change (In b (filter (owned_by uid)
                      (books_collection
                         (exec (new_book_command uid (fst c) (snd c)) db)))).
      rewrite B1, filter_app. apply in_or_app. now left.
    + change (replies (startBook_calls uid (c :: calls)) db)
        with (eval (new_book_command uid (fst c) (snd c)) db ::
              replies (startBook_calls uid calls)
                (exec (new_book_command uid (fst c) (snd c)) db)).
      now rewrite Re, E1.
    + intros [|n] b Hn.
      * cbn in Hn. injection Hn as <-.
        destruct calls; exact G1.
      * cbn [nth_error] in Hn.
        change (firstn (S (S n)) (c :: calls)) with (c :: firstn (S n) calls).
        change (run (startBook_calls uid (c :: firstn (S n) calls)) db)
          with (run (startBook_calls uid (firstn (S n) calls))
                    (exec (new_book_command uid (fst c) (snd c)) db)).
        now apply Cur.
Qed.

Lemma startBook_makes_current_witness :
  registered 1%Z dune_db /\
  Forall (fun c : list string * datetime => fst c <> [])
    [(["Emma"%string], 5); (["War"%string; "and"%string; "Peace"%string], 6)] /\
  exists created,
    books_collection
      (run (startBook_calls 1%Z
              [(["Emma"%string], 5);
               (["War"%string; "and"%string; "Peace"%string], 6)]) dune_db) =
      books_collection dune_db ++ created /\
    forall n b, nth_error created n = Some b ->
      eval (get_current_book 1%Z)
        (run (startBook_calls 1%Z
                (firstn (S n)
                   [(["Emma"%string], 5);
                    (["War"%string; "and"%string; "Peace"%string], 6)])) dune_db) =
      Some b.
Proof.
  assert (R : registered 1%Z dune_db) by (cbv; discriminate).
  assert (A : Forall (fun c : list string * datetime => fst c <> [])
    [(["Emma"%string], 5); (["War"%string; "and"%string; "Peace"%string], 6)])
    by (repeat constructor; discriminate).
  split; [exact R|]. split; [exact A|].
  destruct (startBook_makes_current R A) as (created & B & _ & _ & _ & _ & _ & C).
  exists created. split; [exact B | exact C].
Defined.

(** * switchCurrentBook ([handle_callback_query]) *)

Lemma handle_callback_query_switch db uid oid :
  handle_callback_query uid (switch_ oid) db =
  (match eval (books_find_one oid) db with
   | Some b => switched_to (bk_title b)
   | None => raised
   end,
   exec (users_update_one uid (set_current_book_id (Some oid))) db).
Proof.
  unfold handle_callback_query. unfold_db. destruct db as [users books]. cbn.
  now destruct (find (has_id oid) books).
Qed.

(** C4, on the code. The handler writes [current_book_id] before it looks
    the book up, and looks it up by id alone. For the reader of [dune_db],
    whose current book is book 1: a switch to the id 99, which no book has,
    raises, and leaves 99 as [current_book_id], so that no current book
    resolves any more. For a second user: a switch to book 1, which the
    first reader owns, succeeds and makes that book the second user's
    current book. *)
Theorem switchCurrentBook_unchecked :
  let miss := handle_callback_query 1%Z (switch_ 99) in
  let guest_db := exec (start_command 2%Z (Some "guest"%string) 5 5) dune_db in
  let steal := handle_callback_query 2%Z (switch_ 1) in
  (eval (books_find_one 99) dune_db = None /\
   option_map usr_current_book_id (eval (users_find_one 1%Z) dune_db) =
     Some (Some 1) /\
   eval miss dune_db = raised /\
   option_map usr_current_book_id (eval (users_find_one 1%Z) (exec miss dune_db)) =
     Some (Some 99) /\
   eval (get_current_book 1%Z) (exec miss dune_db) = None) /\
  (eval (books_find (owned_by 2%Z)) guest_db = [] /\
   eval steal guest_db = switched_to "Dune" /\
   eval (get_current_book 2%Z) (exec steal guest_db) = Some dune_book /\
   bk_user_id dune_book = 1%Z).
Proof. repeat split. Qed.

(** * finishedAt *)

(** C9, on the code. The keyboard of [/switchbook] offers book [B]; the
    reader finishes [B] at time 3 and then presses its button, which makes
    the finished book current again; [/finish] at time 9 succeeds and
    replaces [finished_at = 3] by [finished_at = 9]. *)
Theorem finishedAt_overwritten :
  nth_error (replies stale_button_trace empty_db) 3 =
    Some (select_a_book [("B"%string, 0, 2); ("A"%string, 0, 1)]) /\
  eval (get_current_book 1%Z) stale_button_db = Some finished_B /\
  bk_status finished_B = finished /\
  bk_finished_at finished_B = Some 3 /\
  eval (finish_book_command 1%Z 9) stale_button_db = marked_as_finished "B" 0 /\
  option_map bk_finished_at
    (eval (books_find_one 2) (exec (finish_book_command 1%Z 9) stale_button_db)) =
    Some (Some 9).
Proof. repeat split. Qed.

(** * generateReview ([generate_review_command]) *)

Lemma generate_review_command_run db uid chat now sent :
  generate_review_command uid chat now sent db =
  match eval (get_current_book uid) db with
  | None => (no_active_book, db)
  | Some b =>
      match bk_notes b with
      | [] => (no_notes_found (bk_title b), db)
      | _ :: _ =>
          match chat (prompt (bk_title b) (notes_text (bk_notes b))) with
          | Some answer =>
              (if sent
               then review_text (bk_title b) (length (bk_notes b)) (strip answer)
               else review_failed,
               exec (books_update_one (bk_id b) (set_review (strip answer) now)) db)
          | None => (review_failed, db)
          end
      end
  end.
Proof.
  unfold generate_review_command, bind at 1.
  rewrite get_current_book_pure.
  destruct (eval (get_current_book uid) db) as [b|]; [|reflexivity].
  destruct (bk_notes b); [reflexivity|].
  unfold generate_ai_review. destruct (chat _); [|reflexivity].
  now destruct sent.
Qed.

(** C8. A review is persisted only after a successful generation. When the
    chat completion on the prompt of the current book raises, the handler
    answers with the failure message and the store is the store before the
    call, so [ai_review] and [review_generated_at] of every book are
    unchanged and nothing partial is written. When it answers, the
    stripped answer and the clock reading are written to the current
    book, and to nothing else; the handler then answers with the review,
    or with the failure message if the review could not be sent. *)
Theorem failed_generation_writes_nothing db uid chat now sent b :
  eval (get_current_book uid) db = Some b ->
  bk_notes b <> [] ->
  match chat (prompt (bk_title b) (notes_text (bk_notes b))) with
  | None =>
      generate_review_command uid chat now sent db = (review_failed, db) /\
      (forall oid,
         eval (books_find_one oid)
              (exec (generate_review_command uid chat now sent) db) =
         eval (books_find_one oid) db)
  | Some answer =>
      let db' := exec (books_update_one (bk_id b) (set_review (strip answer) now)) db in
      generate_review_command uid chat now sent db =
        (if sent
         then review_text (bk_title b) (length (bk_notes b)) (strip answer)
         else review_failed, db') /\
      users_collection db' = users_collection db /\
      eval (books_find_one (bk_id b)) db' = Some (set_review (strip answer) now b) /\
      bk_ai_review (set_review (strip answer) now b) = Some (strip answer) /\
      bk_review_generated_at (set_review (strip answer) now b) = Some now /\
      (forall oid, oid <> bk_id b ->
         eval (books_find_one oid) db' = eval (books_find_one oid) db)
  end.
Proof.
  intros G N. rewrite generate_review_command_run, G.
  destruct (bk_notes b) eqn:Nb; [congruence|]. rewrite <- Nb.
  destruct (chat _) as [answer|] eqn:C.
  - cbv zeta. repeat split.
    + rewrite !eval_books_find_one.
      change (find (has_id (bk_id b))
                (update_first (has_id (bk_id b)) (set_review (strip answer) now)
                   (books_collection db)) = Some (set_review (strip answer) now b)).
      rewrite find_update_first by reflexivity.
      apply current_book_found in G. rewrite eval_books_find_one in G.
      now rewrite G.
    + intros oid Ho. rewrite !eval_books_find_one.
      change (find (has_id oid)
                (update_first (has_id (bk_id b)) (set_review (strip answer) now)
                   (books_collection db)) = find (has_id oid) (books_collection db)).
      apply find_update_first_other; [reflexivity|].
      intros x Hx. apply has_id_eq in Hx. unfold has_id.
      apply Nat.eqb_neq. congruence.
  - split; [reflexivity|]. intros oid. unfold exec.
    now rewrite generate_review_command_run, G, Nb, <- Nb, C.
Qed.

Lemma failed_generation_writes_nothing_witness :
  eval (get_current_book 1%Z) noted_db = Some noted_book /\
  bk_notes noted_book <> [] /\
  generate_review_command 1%Z (fun _ => None) 3 true noted_db =
    (review_failed, noted_db).
Proof.
  assert (N : bk_notes noted_book <> []) by discriminate.
  split; [reflexivity|]. split; [exact N|].
  exact (proj1 (@failed_generation_writes_nothing noted_db 1%Z (fun _ => None) 3
                  true noted_book eq_refl N)).
Defined.

(** * composeReviewPrompt (the prompt of [generate_review_command]) *)

Lemma append_assoc s1 s2 s3 : (s1 +++ s2) +++ s3 = s1 +++ s2 +++ s3.
Proof. induction s1 as [|c s1 IH]; simpl; [reflexivity | now rewrite IH]. Qed.

Lemma join_cons2 sep x y l : join sep (x :: y :: l) = x +++ sep +++ join sep (y :: l).
Proof. reflexivity. Qed.

Lemma join_head sep x l : exists c, join sep (x :: l) = x +++ c.
Proof.
  destruct l as [|y l].
  - exists EmptyString. simpl. induction x as [|c x IH]; simpl; congruence.
  - eexists. apply join_cons2.
Qed.

Lemma join_app_tail sep l1 y l :
  exists a, join sep (l1 ++ y :: l) = a +++ join sep (y :: l).
Proof.
  induction l1 as [|x l1 [a IH]].
  - exists EmptyString. reflexivity.
  - exists (x +++ sep +++ a).
    assert (E : join sep ((x :: l1) ++ y :: l) =
                x +++ sep +++ join sep (l1 ++ y :: l))
      by (destruct l1; reflexivity).
    rewrite E, IH, !append_assoc. reflexivity.
Qed.

Lemma join_two sep l1 x l2 y l3 :
  exists a b c, join sep (l1 ++ x :: l2 ++ y :: l3) = a +++ x +++ b +++ y +++ c.
Proof.
  destruct (join_app_tail sep l1 x (l2 ++ y :: l3)) as (a & Ha).
  destruct (join_app_tail sep l2 y l3) as (a2 & Ha2).
  destruct (join_head sep y l3) as (c & Hc).
  exists a, (sep +++ a2), c. rewrite Ha.
  assert (E : join sep (x :: l2 ++ y :: l3) =
              x +++ sep +++ join sep (l2 ++ y :: l3))
    by (destruct l2; reflexivity).
  rewrite E, Ha2, Hc, !append_assoc. reflexivity.
Qed.

Lemma note_blocks_from i (notes : list Note) :
  map (fun p : nat * Note =>
         let (k, note) := p in
         ("Note " +++ str (k + 1) +++ ": " +++ note_content note)%string)
      (combine (seq i (length notes)) notes) = spec_blocks_from i notes.
Proof.
  revert i. induction notes as [|n r IH]; intros i; [reflexivity|].
  cbn [length seq combine map spec_blocks_from]. rewrite IH.
  unfold spec_block. now rewrite Nat.add_1_r.
Qed.

Lemma note_blocks_spec notes : note_blocks notes = spec_blocks_from 0 notes.
Proof. apply note_blocks_from. Qed.

Lemma spec_blocks_from_nth notes : forall i k note,
  nth_error notes k = Some note ->
  nth_error (spec_blocks_from i notes) k = Some (spec_block (i + k) note).
Proof.
  induction notes as [|n r IH]; intros i [|k] note; simpl; try discriminate.
  - intros [= ->]. now rewrite Nat.add_0_r.
  - intros H. rewrite (IH (S i) k note H). f_equal. f_equal. lia.
Qed.

Lemma spec_blocks_from_length notes : forall i,
  length (spec_blocks_from i notes) = length notes.
Proof. induction notes; intros i; simpl; auto. Qed.

Lemma spec_blocks_from_content n1 : forall n2 i,
  map note_content n1 = map note_content n2 ->
  spec_blocks_from i n1 = spec_blocks_from i n2.
Proof.
  induction n1 as [|x r IH]; intros [|y r2] i; simpl; try discriminate; trivial.
  intros [= E1 E2]. unfold spec_block. now rewrite E1, (IH r2 (S i) E2).
Qed.

(** C5. [composeReviewPrompt]. A review of a book without notes is refused
    ("no notes") without a call to the language model and without a
    write. For a book with notes the language model is called on the
    prompt: the fixed template around the title and the blocks
    ["Note {i}: {content}"], one per stored note, in stored order, numbered
    from 1 by position, separated by a blank line; so the block of an
    earlier note occurs in the prompt before the block of a later one. The
    prompt is a function of the title and of the contents of the notes. *)
Theorem composeReviewPrompt_blocks :
  (forall db uid chat now sent b,
     eval (get_current_book uid) db = Some b -> bk_notes b = [] ->
     generate_review_command uid chat now sent db =
       (no_notes_found (bk_title b), db)) /\
  (forall db uid chat now sent b,
     eval (get_current_book uid) db = Some b -> bk_notes b <> [] ->
     eval (generate_review_command uid chat now sent) db =
       match chat (prompt (bk_title b) (notes_text (bk_notes b))) with
       | Some answer =>
           if sent
           then review_text (bk_title b) (length (bk_notes b)) (strip answer)
           else review_failed
       | None => review_failed
       end) /\
  (forall title notes, prompt title (notes_text notes) = spec_prompt title notes) /\
  (forall notes, length (note_blocks notes) = length notes) /\
  (forall notes i note,
     nth_error notes i = Some note ->
     nth_error (note_blocks notes) i = Some (spec_block i note)) /\
  (forall title notes i j ni nj,
     i < j -> nth_error notes i = Some ni -> nth_error notes j = Some nj ->
     occurs_before (spec_block i ni) (spec_block j nj)
       (prompt title (notes_text notes))) /\
  (forall title n1 n2,
     map note_content n1 = map note_content n2 ->
     prompt title (notes_text n1) = prompt title (notes_text n2)).
Proof.
  split; [|split; [|split; [|split; [|split; [|split]]]]].
  - intros db uid chat now sent b G N.
    now rewrite generate_review_command_run, G, N.
  - intros db uid chat now sent b G N. unfold eval at 1.
    rewrite generate_review_command_run, G.
    destruct (bk_notes b) eqn:Nb; [congruence|]. rewrite <- Nb.
    now destruct (chat _).
  - intros title notes. unfold spec_prompt, prompt, notes_text.
    now rewrite note_blocks_spec.
  - intros notes. rewrite note_blocks_spec. apply spec_blocks_from_length.
  - intros notes i note H. rewrite note_blocks_spec.
    apply (spec_blocks_from_nth notes 0 i H).
  - intros title notes i j ni nj Lt Hi Hj.
    assert (Bi := spec_blocks_from_nth notes 0 i Hi).
    assert (Bj := spec_blocks_from_nth notes 0 j Hj).
    cbn [Nat.add] in Bi, Bj.
    destruct (nth_error_split _ _ Bi) as (l1 & r & E & L1).
    rewrite E in Bj. rewrite nth_error_app2 in Bj by lia.
    rewrite L1 in Bj. destruct (j - i) as [|d] eqn:D; [lia|].
    cbn [nth_error] in Bj.
    destruct (nth_error_split _ _ Bj) as (l2 & l3 & E2 & _). subst r.
    destruct (join_two (nl +++ nl) l1 (spec_block i ni) l2 (spec_block j nj) l3)
      as (a & b & c & J).
    unfold prompt, notes_text. rewrite note_blocks_spec, E, J.
    exists (prompt_head +++ title +++ prompt_middle +++ a), b, (c +++ prompt_tail).
    now rewrite !append_assoc.
  - intros title n1 n2 E. unfold notes_text.
    now rewrite !note_blocks_spec, (spec_blocks_from_content n1 n2 0 E).
Qed.

Lemma composeReviewPrompt_blocks_witness :
  occurs_before "Note 1: A" "Note 2: B"
    (prompt "T" (notes_text [mkNote "A" text 1 1%Z None;
                             mkNote "B" voice 2 2%Z (Some 4)])).
Proof.
  exact (proj1 (proj2 (proj2 (proj2 (proj2 (proj2 composeReviewPrompt_blocks)))))
           "T"%string
           [mkNote "A" text 1 1%Z None; mkNote "B" voice 2 2%Z (Some 4)]
           0 1 _ _ (Nat.lt_0_1) eq_refl eq_refl).
Defined.

(** * computeStats ([stats_command]) *)

Lemma py_max_inv A (key : A -> nat) rest : forall pre1 pre2 best,
  Forall (fun x => key x < key best) pre1 ->
  Forall (fun x => key x <= key best) pre2 ->
  exists l1 l2,
    pre1 ++ best :: pre2 ++ rest = l1 ++ py_max key best rest :: l2 /\
    Forall (fun x => key x < key (py_max key best rest)) l1 /\
    Forall (fun x => key x <= key (py_max key best rest)) l2.
Proof.
  unfold py_max. induction rest as [|x r IH]; intros pre1 pre2 best H1 H2.
  - exists pre1, pre2. rewrite app_nil_r. auto.
  - cbn [fold_left]. destruct (key best <? key x) eqn:C.
    + apply Nat.ltb_lt in C.
      destruct (@IH (pre1 ++ best :: pre2) [] x) as (l1 & l2 & E & F1 & F2).
      * apply Forall_app. split; [|constructor].
        -- eapply Forall_impl; [|exact H1]. simpl. intros; lia.
        -- exact C.
        -- eapply Forall_impl; [|exact H2]. simpl. intros; lia.
      * constructor.
      * exists l1, l2. split; [|auto].
        rewrite <- E, <- app_assoc. reflexivity.
    + apply Nat.ltb_ge in C.
      destruct (@IH pre1 (pre2 ++ [x]) best H1) as (l1 & l2 & E & F1 & F2).
      * apply Forall_app. split; [exact H2|]. constructor; [exact C | constructor].
      * exists l1, l2. split; [|auto].
        rewrite <- E, <- app_assoc. reflexivity.
Qed.

Lemma py_max_first A (key : A -> nat) first rest :
  exists l1 l2,
    first :: rest = l1 ++ py_max key first rest :: l2 /\
    Forall (fun x => key x < key (py_max key first rest)) l1 /\
    Forall (fun x => key x <= key (py_max key first rest)) l2.
Proof. apply (@py_max_inv _ key rest [] [] first); constructor. Qed.

Lemma sorted_drop_middle (a m c : list nat) :
  StronglySorted le (a ++ m ++ c) -> StronglySorted le (a ++ c).
Proof.
  induction a as [|x a IH]; cbn [app].
  - induction m as [|y m IHm]; cbn [app]; [trivial|].
    intros H. apply StronglySorted_inv in H. tauto.
  - intros H. apply StronglySorted_inv in H. destruct H as [S F].
    constructor; [auto|].
    apply Forall_app in F. destruct F as [Fa F].
    apply Forall_app in F. destruct F as [_ Fc].
    apply Forall_app. auto.
Qed.

Lemma books_write_chronological ts l l' future :
  books_write ts l l' ->
  StronglySorted le (map bk_created_at l ++ ts ++ future) ->
  StronglySorted le (map bk_created_at l' ++ future).
Proof.
  intros [ | oid n | oid r t | oid t | uid title now Hin] S;
    try (rewrite map_update_first by reflexivity);
    try (eapply sorted_drop_middle; exact S).
  apply in_split in Hin. destruct Hin as (t1 & t2 & ->).
  rewrite map_app. cbn [map bk_created_at].
  rewrite <- !app_assoc in *. cbn [app] in *.
  apply sorted_drop_middle in S.
  change (StronglySorted le
            (map bk_created_at l ++ [now] ++ future)).
  rewrite app_assoc.
  apply sorted_drop_middle with (m := t2).
  now rewrite <- app_assoc.
Qed.

Lemma run_chronological us : forall db,
  StronglySorted le (map bk_created_at (books_collection db) ++
                     flat_map clock_readings us) ->
  StronglySorted le (map bk_created_at (books_collection (run us db))).
Proof.
  induction us as [|u us IH]; intros db S; cbn [run flat_map] in *.
  - now rewrite app_nil_r in S.
  - apply IH. eapply books_write_chronological; [apply dispatch_books_write|].
    exact S.
Qed.

Lemma chronological_of_dates l :
  StronglySorted le (map bk_created_at l) -> chronological l.
Proof.
  unfold chronological. induction l as [|b l IH]; cbn [map]; intros S.
  - constructor.
  - apply StronglySorted_inv in S. destruct S as [S F].
    constructor; [auto|]. rewrite Forall_map in F. exact F.
Qed.

Lemma chronological_filter p l : chronological l -> chronological (filter p l).
Proof.
  unfold chronological. induction 1 as [|b l S IH F]; simpl; [constructor|].
  destruct (p b); [|exact IH]. constructor; [exact IH|].
  apply Forall_forall. intros x Hx. apply filter_In in Hx.
  rewrite Forall_forall in F. now apply F.
Qed.

Lemma chronological_after l1 m l2 :
  chronological (l1 ++ m :: l2) ->
  Forall (fun b => bk_created_at m <= bk_created_at b) l2.
Proof.
  unfold chronological. induction l1 as [|x l1 IH]; cbn [app]; intros S;
    apply StronglySorted_inv in S; destruct S as [S F]; auto.
Qed.

Lemma count_by_status (l : list Book) :
  length (filter (fun b => Status_eqb (bk_status b) reading) l) =
  length l - length (filter (fun b => Status_eqb (bk_status b) finished) l).
Proof.
  assert (H : length l =
              length (filter (fun b => Status_eqb (bk_status b) reading) l) +
              length (filter (fun b => Status_eqb (bk_status b) finished) l)).
  { induction l as [|b l IH]; [reflexivity|]. simpl.
    destruct (bk_status b); simpl; lia. }
  lia.
Qed.

(** C6, what fails. With a clock that is set back, two books of one reader
    have one note each and [/stats] names the one stored first, [Late],
    although [Early] has the earlier [created_at]. *)
Lemma computeStats_skewed_clock_counterexample :
  eval (books_find (owned_by 1%Z)) (run skew_trace empty_db) =
    [late_book; early_book] /\
  note_count late_book = note_count early_book /\
  bk_created_at early_book < bk_created_at late_book /\
  eval (stats_command 1%Z) (run skew_trace empty_db) =
    stats_text 2 0 2 2 (bk_title late_book) (note_count late_book).
Proof. repeat split. cbv. repeat constructor. Qed.

(** C6, as the code has it. [computeStats] ([stats_command]): a user
    without books gets the "no stats" answer. Otherwise the answer carries
    the number of the user's books, the number of finished ones, the number
    of reading ones, the total number of notes, and the title and note
    count of the most noted book [m]: no book of the user has more notes
    than [m], and ties go to the book stored first (the books stored before
    [m] have fewer notes). That book has the earliest [created_at] among
    the tied ones whenever creation dates never decrease along the
    collection, as in every store reached from the empty one with clock
    readings that never decrease. Nothing is written. *)
Theorem computeStats_first_stored db uid :
  let books := eval (books_find (owned_by uid)) db in
  (books = [] -> stats_command uid db = (no_stats_yet, db)) /\
  (books <> [] ->
   exists m before after,
     books = before ++ m :: after /\
     stats_command uid db =
       (stats_text (length books)
          (length (filter (fun b => Status_eqb (bk_status b) finished) books))
          (length (filter (fun b => Status_eqb (bk_status b) reading) books))
          (list_sum (map note_count books))
          (bk_title m) (note_count m), db) /\
     Forall (fun b => note_count b < note_count m) before /\
     Forall (fun b => note_count b <= note_count m) after /\
     (forall b, In b books -> note_count b <= note_count m) /\
     (chronological (books_collection db) ->
      forall b, In b books -> note_count b = note_count m ->
                bk_created_at m <= bk_created_at b)) /\
  (forall us, clock_monotone us -> db = run us empty_db ->
              chronological (books_collection db)).
Proof.
  intros books.
  assert (Run : stats_command uid db =
                match books with
                | [] => (no_stats_yet, db)
                | b0 :: rest =>
                    (stats_text (length books)
                       (length (filter (fun b => Status_eqb (bk_status b) finished) books))
                       (length books -
                        length (filter (fun b => Status_eqb (bk_status b) finished) books))
                       (list_sum (map note_count books))
                       (bk_title (py_max note_count b0 rest))
                       (note_count (py_max note_count b0 rest)), db)
                end).
  { unfold books, stats_command. unfold_db. now destruct (filter _ _). }
  split; [|split].
  - intros E. now rewrite Run, E.
  - intros NE. destruct books as [|b0 rest] eqn:Eb; [congruence|].
    destruct (py_max_first note_count b0 rest) as (l1 & l2 & E & F1 & F2).
    set (m := py_max note_count b0 rest) in *.
    exists m, l1, l2. split; [exact E|].
    split; [|split; [exact F1 | split; [exact F2 | split]]].
    + rewrite Run, <- count_by_status. reflexivity.
    + rewrite Forall_forall in F1, F2.
      intros b Hb. rewrite E in Hb. apply in_app_or in Hb.
      destruct Hb as [Hb|[<-|Hb]]; [apply F1 in Hb; lia | lia | now apply F2].
    + intros Chr.
      assert (Chr' : chronological (b0 :: rest)).
      { rewrite <- Eb. unfold books. now apply chronological_filter. }
      rewrite E in Chr'. apply chronological_after in Chr'.
      rewrite Forall_forall in F1, Chr'.
      intros b Hb Tie. rewrite E in Hb. apply in_app_or in Hb.
      destruct Hb as [Hb|[<-|Hb]]; [apply F1 in Hb; lia | lia | now apply Chr'].
  - intros us Mono ->. apply chronological_of_dates, run_chronological.
    exact Mono.
Qed.

Lemma computeStats_first_stored_witness :
  clock_monotone tie_trace /\
  eval (books_find (owned_by 1%Z)) (run tie_trace empty_db) <> [] /\
  exists m,
    stats_command 1%Z (run tie_trace empty_db) =
      (stats_text 2 0 2 2 (bk_title m) (note_count m), run tie_trace empty_db) /\
    forall b, In b (eval (books_find (owned_by 1%Z)) (run tie_trace empty_db)) ->
              note_count b = note_count m -> bk_created_at m <= bk_created_at b.
Proof.
  assert (Mono : clock_monotone tie_trace) by (repeat constructor).
  assert (NE : eval (books_find (owned_by 1%Z)) (run tie_trace empty_db) <> [])
    by discriminate.
  split; [exact Mono|]. split; [exact NE|].
  destruct (computeStats_first_stored (run tie_trace empty_db) 1%Z)
    as (_ & Some_books & Chr).
  destruct (Some_books NE) as (m & before & after & _ & R & _ & _ & _ & T).
  exists m. split; [exact R | exact (T (Chr tie_trace Mono eq_refl))].
Defined.

(** * Further properties of the handlers *)

(** ** Commands that only read *)

Lemma my_books_command_run db uid :
  my_books_command uid db =
  (match eval (books_find (owned_by uid)) db with
   | [] => no_books_yet
   | books =>
       books_text
         (map (listing_line
                 match eval (users_find_one uid) db with
                 | Some u => usr_current_book_id u
                 | None => None
                 end)
              (sort_created_desc books))
   end, db).
Proof.
  unfold my_books_command. unfold_db. destruct db as [users books].
  destruct (filter (owned_by uid) books); reflexivity.
Qed.

Lemma switch_book_command_run db uid :
  switch_book_command uid db =
  (match sort_created_desc
           (eval (books_find
                    (fun b => owned_by uid b && Status_eqb (bk_status b) reading)) db)
   with
   | [] => no_active_books_found
   | [b] => only_one_active (bk_title b)
   | books => select_a_book (map button books)
   end, db).
Proof.
  unfold switch_book_command. unfold_db. destruct db as [users books].
  destruct (sort_created_desc _) as [|? [|? ?]]; reflexivity.
Qed.

Lemma stats_command_pure db uid : exec (stats_command uid) db = db.
Proof.
  unfold stats_command. unfold_db. destruct db as [users books].
  now destruct (filter (owned_by uid) books).
Qed.

Lemma current_book_command_pure db uid : exec (current_book_command uid) db = db.
Proof.
  unfold current_book_command, exec, bind. rewrite get_current_book_pure.
  now destruct (eval (get_current_book uid) db).
Qed.

(** X1. The listing, lookup and statistics commands, the help text, and button
    presses that are not a well-formed switch never write to the store. *)
Theorem reading_commands_write_nothing db uid :
  exec help_command db = db /\
  exec (my_books_command uid) db = db /\
  exec (current_book_command uid) db = db /\
  exec (switch_book_command uid) db = db /\
  exec (stats_command uid) db = db /\
  exec (get_current_book uid) db = db /\
  exec (handle_callback_query uid other_data) db = db /\
  exec (handle_callback_query uid switch_invalid) db = db.
Proof.
  repeat split.
  - unfold exec. now rewrite my_books_command_run.
  - apply current_book_command_pure.
  - unfold exec. now rewrite switch_book_command_run.
  - apply stats_command_pure.
  - unfold exec. now rewrite get_current_book_pure.
Qed.

(** ** Refusals *)

(** X2. Whenever a handler answers by an early return (no title, no books,
    no active book, no active books, no notes, no stats), the store is
    exactly as before. The failure answers of the two [try] blocks are
    another matter: after a failed transcription the store is as before,
    but when only the sending of the result fails, the failure answer
    follows a note, or a review, that has been stored. *)
Theorem refusals_write_nothing db :
  (forall u, is_refusal (eval (dispatch u) db) = true -> exec (dispatch u) db = db) /\
  (forall uid mid d now sent,
     exec (handle_voice_note uid None mid d now sent) db = db) /\
  (forall uid b s mid d now,
     eval (get_current_book uid) db = Some b ->
     handle_voice_note uid (Some s) mid d now false db =
       (voice_note_failed,
        exec (books_update_one (bk_id b)
                (push_note (mkNote s voice now mid (Some d)))) db)) /\
  (forall uid b chat now answer,
     eval (get_current_book uid) db = Some b -> bk_notes b <> [] ->
     chat (prompt (bk_title b) (notes_text (bk_notes b))) = Some answer ->
     generate_review_command uid chat now false db =
       (review_failed,
        exec (books_update_one (bk_id b) (set_review (strip answer) now)) db)).
Proof.
  split; [|split; [|split]].
  - intros u. destruct u; cbn [dispatch].
    + discriminate.
    + discriminate.
    + destruct args; [reflexivity|].
      unfold eval. rewrite new_book_command_run. discriminate.
    + intros _. unfold exec. now rewrite my_books_command_run.
    + intros _. apply current_book_command_pure.
    + intros _. unfold exec. now rewrite switch_book_command_run.
    + unfold eval, exec. rewrite generate_review_command_run.
      destruct (eval (get_current_book user_id) db) as [b|]; [|reflexivity].
      destruct (bk_notes b); [reflexivity|].
      destruct (chat _); [destruct sent; discriminate | reflexivity].
    + unfold eval, exec. rewrite finish_book_command_run.
      destruct (eval (get_current_book user_id) db); [discriminate | reflexivity].
    + intros _. apply stats_command_pure.
    + unfold eval, exec. rewrite handle_text_note_run.
      destruct (eval (get_current_book user_id) db); [discriminate | reflexivity].
    + unfold eval, exec. rewrite handle_voice_note_run.
      destruct (eval (get_current_book user_id) db); [|reflexivity].
      destruct transcript; [destruct sent; discriminate | reflexivity].
    + destruct data; try reflexivity.
      unfold eval. rewrite handle_callback_query_switch. cbn [fst].
      destruct (eval (books_find_one book_id) db); discriminate.
  - intros uid mid d now sent. unfold exec. rewrite handle_voice_note_run.
    now destruct (eval (get_current_book uid) db).
  - intros uid b s mid d now G. now rewrite handle_voice_note_run, G.
  - intros uid b chat now answer G N C.
    rewrite generate_review_command_run, G.
    destruct (bk_notes b) eqn:Nb; [congruence|]. now rewrite C.
Qed.

Lemma refusals_write_nothing_witness :
  is_refusal (eval (dispatch (cmd_finish 7%Z 5)) dune_db) = true /\
  exec (dispatch (cmd_finish 7%Z 5)) dune_db = dune_db.
Proof.
  split; [reflexivity|].
  exact (proj1 (refusals_write_nothing dune_db) (cmd_finish 7%Z 5) eq_refl).
Defined.

(** ** Stored books *)

(** X3. Books are never deleted, moved or rewritten: over any run of updates a
    stored book stays at its place with its id, owner, title and creation
    date, its notes are only extended at the end, and the collection never
    shrinks. *)
Theorem stored_books_only_grow us db :
  length (books_collection db) <= length (books_collection (run us db)) /\
  forall i b,
    nth_error (books_collection db) i = Some b ->
    exists b' more,
      nth_error (books_collection (run us db)) i = Some b' /\
      bk_id b' = bk_id b /\ bk_user_id b' = bk_user_id b /\
      bk_title b' = bk_title b /\ bk_created_at b' = bk_created_at b /\
      bk_notes b' = bk_notes b ++ more.
Proof.
  pose proof (run_books_grow us db) as G. split.
  - destruct G as (old & ins & -> & F). apply Forall2_length in F.
    rewrite length_app. lia.
  - intros i b N. destruct (books_grow_nth _ G N) as (b' & N' & H).
    destruct H as (I & U & T & C & (more & M) & _).
    exists b', more. auto 10.
Qed.

Lemma stored_books_only_grow_witness :
  nth_error (books_collection dune_db) 0 = Some dune_book /\
  exists b' more,
    nth_error (books_collection (run tie_trace dune_db)) 0 = Some b' /\
    bk_id b' = bk_id dune_book /\ bk_user_id b' = bk_user_id dune_book /\
    bk_title b' = bk_title dune_book /\
    bk_created_at b' = bk_created_at dune_book /\
    bk_notes b' = bk_notes dune_book ++ more.
Proof.
  split; [reflexivity|].
  exact (proj2 (stored_books_only_grow tie_trace dune_db) 0 dune_book eq_refl).
Defined.

(** ** Notes arrive in order *)

Lemma note_of_step u uid n db b :
  note_of u = Some (uid, n) ->
  eval (get_current_book uid) db = Some b ->
  exec (dispatch u) db = exec (books_update_one (bk_id b) (push_note n)) db.
Proof.
  destruct u; try discriminate; cbn [note_of dispatch].
  - intros [= <- <-] G. unfold exec at 1. now rewrite handle_text_note_run, G.
  - destruct transcript; [|discriminate].
    intros [= <- <-] G. unfold exec at 1. now rewrite handle_voice_note_run, G.
Qed.

(** X4. A burst of text and transcribed voice messages of one user, with a
    current book, ends up in that book's notes, after the notes it had, in
    the order of arrival, whether or not each voice note could be
    acknowledged; the book stays the current one and no user record
    changes. *)
Theorem notes_keep_arrival_order us : forall ns db uid b,
  eval (get_current_book uid) db = Some b ->
  Forall2 (fun u n => note_of u = Some (uid, n)) us ns ->
  exists b',
    eval (get_current_book uid) (run us db) = Some b' /\
    bk_id b' = bk_id b /\
    bk_notes b' = bk_notes b ++ ns /\
    users_collection (run us db) = users_collection db.
Proof.
  induction us as [|u us IH]; intros ns db uid b G F; inversion F; subst.
  - exists b. cbn [run]. rewrite app_nil_r. auto.
  - match goal with H : note_of u = Some _ |- _ => rename H into N end.
    match goal with H : Forall2 _ us _ |- _ => rename H into F' end.
    cbn [run]. rewrite (note_of_step _ _ N G).
    pose proof (@current_book_after_update uid db b (push_note y)
                  (fun x => eq_refl) G) as G1.
    destruct (IH _ _ _ _ G1 F') as (b' & G' & I & Nt & U).
    exists b'. split; [exact G'|]. split; [exact I|].
    split; [|exact U].
    rewrite Nt. cbn [push_note bk_notes]. now rewrite <- app_assoc.
Qed.

Lemma notes_keep_arrival_order_witness :
  eval (get_current_book 1%Z) dune_db = Some dune_book /\
  exists b',
    eval (get_current_book 1%Z)
      (run [text_message 1%Z "one" 20%Z 5;
            voice_message 1%Z (Some "two"%string) 21%Z 9 6 false;
            text_message 1%Z "three" 22%Z 7] dune_db) = Some b' /\
    bk_notes b' =
      bk_notes dune_book ++
      [mkNote "one" text 5 20%Z None; mkNote "two" voice 6 21%Z (Some 9);
       mkNote "three" text 7 22%Z None].
Proof.
  split; [reflexivity|].
  destruct (@notes_keep_arrival_order
              [text_message 1%Z "one" 20%Z 5;
               voice_message 1%Z (Some "two"%string) 21%Z 9 6 false;
               text_message 1%Z "three" 22%Z 7]
              [mkNote "one" text 5 20%Z None; mkNote "two" voice 6 21%Z (Some 9);
               mkNote "three" text 7 22%Z None]
              dune_db 1%Z dune_book eq_refl)
    as (b' & G & _ & N & _).
  - repeat constructor.
  - exists b'. split; [exact G | exact N].
Defined.

(** ** What an update writes to [users] *)

Lemma dispatch_users_pointer u db :
  is_start u = false ->
  users_collection (exec (dispatch u) db) = users_collection db \/
  exists uid c,
    sender u = Some uid /\
    users_collection (exec (dispatch u) db) =
    update_first (is_user uid) (set_current_book_id c) (users_collection db).
Proof.
  destruct u; cbn [dispatch sender is_start]; intros S; try discriminate.
  - now left.
  - destruct args; [now left|].
    unfold exec. rewrite new_book_command_run. right.
    eexists _, _. split; reflexivity.
  - unfold exec. rewrite my_books_command_run. now left.
  - rewrite current_book_command_pure. now left.
  - unfold exec. rewrite switch_book_command_run. now left.
  - unfold exec. rewrite generate_review_command_run.
    destruct (eval (get_current_book user_id) db) as [b|]; [|now left].
    destruct (bk_notes b); [now left|].
    destruct (chat _); now left.
  - unfold exec. rewrite finish_book_command_run.
    destruct (eval (get_current_book user_id) db) as [b|]; [|now left].
    right. exists user_id, None. now split.
  - rewrite stats_command_pure. now left.
  - unfold exec. rewrite handle_text_note_run.
    destruct (eval (get_current_book user_id) db); now left.
  - unfold exec. rewrite handle_voice_note_run.
    destruct (eval (get_current_book user_id) db); [|now left].
    destruct transcript; now left.
  - destruct data; try now left.
    unfold exec. rewrite handle_callback_query_switch. right.
    eexists _, _. split; reflexivity.
Qed.

Lemma dispatch_users_write u db :
  users_write (sender u) (users_collection db)
    (users_collection (exec (dispatch u) db)).
Proof.
  destruct (is_start u) eqn:S.
  - destruct u; try discriminate. cbn [dispatch sender].
    unfold start_command. unfold_db. destruct db as [users books].
    cbn. unfold upsert_first.
    destruct (existsb (is_user user_id) users) eqn:E.
    + now apply uw_seen.
    + apply uw_new; [reflexivity|]. now apply existsb_find.
  - destruct (dispatch_users_pointer u db S) as [->|(uid & c & W & ->)].
    + apply uw_none.
    + now apply uw_pointer.
Qed.

Lemma is_user_other uid uid' u :
  uid <> uid' -> is_user uid u = true -> is_user uid' u = false.
Proof.
  unfold is_user. intros D H. apply Z.eqb_eq in H. apply Z.eqb_neq. congruence.
Qed.

(** X5. No command of one user touches the record of another: an update leaves
    the records of every user other than its sender as they were, with
    their current book. *)
Theorem other_users_untouched u db uid :
  sender u <> Some uid ->
  filter (is_user uid) (users_collection (exec (dispatch u) db)) =
  filter (is_user uid) (users_collection db).
Proof.
  intros D.
  destruct (dispatch_users_write u db) as [ | who c W | who n t W | who n a b W F].
  - reflexivity.
  - apply filter_update_first_other; [reflexivity|].
    intros x. apply is_user_other. congruence.
  - apply filter_update_first_other; [reflexivity|].
    intros x. apply is_user_other. congruence.
  - rewrite filter_app_one.
    assert (E : is_user uid (mkUser who n a b None) = false).
    { apply (@is_user_other who); [congruence | apply is_user_refl]. }
    rewrite E. apply app_nil_r.
Qed.

Lemma other_users_untouched_witness :
  sender (callback_query 2%Z (switch_ 1)) <> Some 1%Z /\
  filter (is_user 1%Z)
    (users_collection (exec (dispatch (callback_query 2%Z (switch_ 1))) dune_db)) =
  filter (is_user 1%Z) (users_collection dune_db).
Proof.
  assert (D : sender (callback_query 2%Z (switch_ 1)) <> Some 1%Z) by discriminate.
  split; [exact D|].
  exact (@other_users_untouched (callback_query 2%Z (switch_ 1)) dune_db 1%Z D).
Defined.

(** X6. Only [/start] registers: over a run without [/start] the user ids of
    the records of [users], in order, are the same at the end as at the
    beginning, so a user without a record still has none. *)
Theorem only_start_registers us : forall db,
  forallb (fun u => negb (is_start u)) us = true ->
  map usr_user_id (users_collection (run us db)) =
  map usr_user_id (users_collection db).
Proof.
  induction us as [|u us IH]; intros db H; [reflexivity|].
  cbn [forallb] in H. apply andb_true_iff in H. destruct H as [Hu H].
  apply negb_true_iff in Hu.
  cbn [run]. rewrite (IH _ H).
  destruct (dispatch_users_pointer u db Hu) as [->|(uid & c & _ & ->)].
  - reflexivity.
  - now apply map_update_first.
Qed.

Lemma only_start_registers_witness :
  forallb (fun u => negb (is_start u))
    [cmd_newbook 7%Z ["Dune"%string] 100; text_message 7%Z "x" 1%Z 101;
     callback_query 7%Z (switch_ 1); cmd_finish 7%Z 102] = true /\
  map usr_user_id
    (users_collection
       (run [cmd_newbook 7%Z ["Dune"%string] 100; text_message 7%Z "x" 1%Z 101;
             callback_query 7%Z (switch_ 1); cmd_finish 7%Z 102] dune_db)) =
  map usr_user_id (users_collection dune_db).
Proof.
  split; [reflexivity|].
  exact (@only_start_registers
           [cmd_newbook 7%Z ["Dune"%string] 100; text_message 7%Z "x" 1%Z 101;
            callback_query 7%Z (switch_ 1); cmd_finish 7%Z 102] dune_db eq_refl).
Defined.

(** ** Invariants of the store *)

Lemma NoDup_snoc A (l : list A) x : ~ In x l -> NoDup l -> NoDup (l ++ [x]).
Proof.
  intros N D. apply (Permutation_NoDup (Permutation_cons_append l x)).
  now constructor.
Qed.

Lemma new_ObjectId_not_in books : ~ In (new_ObjectId books) (map bk_id books).
Proof.
  intros H. apply list_max_ge in H. unfold new_ObjectId in H. lia.
Qed.

Lemma books_write_ids ts l l' :
  books_write ts l l' -> map bk_id l' = map bk_id l \/
  exists b, l' = l ++ [b] /\ ~ In (bk_id b) (map bk_id l).
Proof.
  intros [ | oid n | oid r t | oid t | uid title now _];
    try (left; now rewrite ?map_update_first).
  right. eexists. split; [reflexivity|]. apply new_ObjectId_not_in.
Qed.

Lemma find_user_none uid l :
  find (is_user uid) l = None -> ~ In uid (map usr_user_id l).
Proof.
  intros F H. apply in_map_iff in H. destruct H as (u & E & Hu).
  apply (find_none _ _ F) in Hu. unfold is_user in Hu.
  rewrite E, Z.eqb_refl in Hu. discriminate.
Qed.

Lemma dispatch_ids_unique u db : ids_unique db -> ids_unique (exec (dispatch u) db).
Proof.
  intros [B U]. split.
  - destruct (books_write_ids (dispatch_books_write u db)) as [->|(b & -> & N)];
      [exact B|].
    rewrite map_app. now apply NoDup_snoc.
  - destruct (dispatch_users_write u db) as [ | who c W | who n t W | who n a b W F].
    + exact U.
    + now rewrite map_update_first.
    + now rewrite map_update_first.
    + rewrite map_app. apply NoDup_snoc; [|exact U].
      now apply find_user_none.
Qed.

(** X7. Ids identify, and keep doing so: if no two books share an [_id] and no
    two user records share a [user_id], the same holds after any run of
    updates; in particular [/start] never makes a second record for a user
    and [insert_one] never reuses an id. *)
Theorem ids_stay_unique us : forall db, ids_unique db -> ids_unique (run us db).
Proof.
  induction us as [|u us IH]; intros db H; [exact H|].
  cbn [run]. apply IH, dispatch_ids_unique, H.
Qed.

Lemma ids_unique_empty : ids_unique empty_db.
Proof. split; constructor. Qed.

Lemma ids_stay_unique_witness :
  ids_unique empty_db /\ ids_unique (run stale_button_trace empty_db).
Proof.
  split; [exact ids_unique_empty|].
  exact (@ids_stay_unique stale_button_trace empty_db ids_unique_empty).
Defined.

Lemma Forall_update_first A (P : A -> Prop) p f l :
  (forall x, P x -> P (f x)) -> Forall P l -> Forall P (update_first p f l).
Proof.
  intros Hf. induction 1 as [|x l Hx F IH]; simpl; [constructor|].
  destruct (p x); constructor; auto.
Qed.

Lemma books_write_dated ts l l' :
  books_write ts l l' -> Forall dated_consistently l -> Forall dated_consistently l'.
Proof.
  intros [ | oid n | oid r t | oid t | uid title now _] F.
  - exact F.
  - apply Forall_update_first; [|exact F]. intros x H. exact H.
  - apply Forall_update_first; [|exact F].
    intros x [H _]. split; [exact H|]. simpl. split; discriminate.
  - apply Forall_update_first; [|exact F].
    intros x [_ H]. split; [|exact H]. simpl. split; [discriminate | reflexivity].
  - apply Forall_app. split; [exact F|]. constructor; [|constructor].
    split; simpl; split; try discriminate; try reflexivity. congruence.
Qed.

(** X8. The date fields follow what they date: if in every stored book
    [finished_at] is set exactly when the status is finished, and
    [review_generated_at] exactly when [ai_review] is, then the same holds
    after any run of updates. *)
Theorem dates_stay_consistent us : forall db,
  Forall dated_consistently (books_collection db) ->
  Forall dated_consistently (books_collection (run us db)).
Proof.
  induction us as [|u us IH]; intros db H; [exact H|].
  cbn [run]. apply IH. eapply books_write_dated; [apply dispatch_books_write|].
  exact H.
Qed.

Lemma dates_stay_consistent_witness :
  Forall dated_consistently (books_collection empty_db) /\
  Forall dated_consistently (books_collection (run stale_button_trace empty_db)).
Proof.
  assert (E : Forall dated_consistently (books_collection empty_db)) by constructor.
  split; [exact E|].
  exact (@dates_stay_consistent stale_button_trace empty_db E).
Defined.

(** ** Listings *)

Lemma insert_desc_perm b l : Permutation (insert_desc b l) (b :: l).
Proof.
  induction l as [|x r IH]; simpl; [apply Permutation_refl|].
  destruct (bk_created_at b <? bk_created_at x); [|apply Permutation_refl].
  eapply perm_trans; [apply perm_skip, IH | apply perm_swap].
Qed.

Lemma sort_created_desc_perm l : Permutation (sort_created_desc l) l.
Proof.
  induction l as [|b l IH]; simpl; [constructor|].
  eapply perm_trans; [apply insert_desc_perm | now apply perm_skip].
Qed.

Lemma insert_desc_sorted b l : newest_first l -> newest_first (insert_desc b l).
Proof.
  unfold newest_first. induction 1 as [|x r S IH F]; simpl.
  - repeat constructor.
  - destruct (bk_created_at b <? bk_created_at x) eqn:C.
    + apply Nat.ltb_lt in C. constructor; [exact IH|].
      apply (Permutation_Forall (Permutation_sym (insert_desc_perm b r))).
      constructor; [lia | exact F].
    + apply Nat.ltb_ge in C. constructor; [now constructor|].
      constructor; [exact C|].
      eapply Forall_impl; [|exact F]. simpl. intros; lia.
Qed.

Lemma sort_created_desc_sorted l : newest_first (sort_created_desc l).
Proof.
  induction l as [|b l IH]; simpl; [constructor | now apply insert_desc_sorted].
Qed.

(** X9. [/mybooks] lists every book the user owns, finished ones included, once
    each and newest first, whoever's current book they are; a user without
    books gets the "no books yet" answer. *)
Theorem my_books_lists_all_newest_first db uid :
  let mine := eval (books_find (owned_by uid)) db in
  let pointer :=
    match eval (users_find_one uid) db with
    | Some u => usr_current_book_id u
    | None => None
    end in
  exists listed,
    Permutation listed mine /\
    newest_first listed /\
    (forall b, In b listed <-> In b (books_collection db) /\ bk_user_id b = uid) /\
    eval (my_books_command uid) db =
      match mine with
      | [] => no_books_yet
      | _ => books_text (map (listing_line pointer) listed)
      end.
Proof.
  cbv zeta. exists (sort_created_desc (eval (books_find (owned_by uid)) db)).
  split; [apply sort_created_desc_perm|].
  split; [apply sort_created_desc_sorted|]. split.
  - intros b. split.
    + intros H. apply (Permutation_in _ (sort_created_desc_perm _)) in H.
      apply filter_In in H. destruct H as [H O]. split; [exact H|].
      now apply Z.eqb_eq in O.
    + intros [H O].
      apply (Permutation_in _ (Permutation_sym (sort_created_desc_perm _))).
      apply filter_In. split; [exact H|]. now apply Z.eqb_eq.
  - unfold eval at 1. rewrite my_books_command_run. cbn [fst].
    now destruct (eval (books_find (owned_by uid)) db).
Qed.

Lemma switch_keyboard_inv db uid keyboard :
  eval (switch_book_command uid) db = select_a_book keyboard ->
  exists offered,
    keyboard = map button offered /\ 2 <= length offered /\
    newest_first offered /\
    Permutation offered
      (eval (books_find
               (fun b => owned_by uid b && Status_eqb (bk_status b) reading)) db).
Proof.
  unfold eval at 1. rewrite switch_book_command_run. cbn [fst].
  pose proof (sort_created_desc_perm
    (eval (books_find
             (fun b => owned_by uid b && Status_eqb (bk_status b) reading)) db)) as P.
  pose proof (sort_created_desc_sorted
    (eval (books_find
             (fun b => owned_by uid b && Status_eqb (bk_status b) reading)) db)) as S.
  destruct (sort_created_desc _) as [|x [|y r]]; try discriminate.
  intros [= <-]. exists (x :: y :: r). repeat split; trivial. simpl. lia.
Qed.

Lemma Status_eqb_eq a b : Status_eqb a b = true -> a = b.
Proof. destruct a, b; simpl; congruence. Qed.

(** X10. [/switchbook] answers by the number of books the user is reading: none,
    "no active books"; one, its title; two or more, a keyboard with one
    button per such book, newest first, carrying its title, its number of
    notes and its id. A finished book and a book of another user are never
    offered. *)
Theorem switch_keyboard_offers_reading_books db uid :
  let active :=
    eval (books_find
            (fun b => owned_by uid b && Status_eqb (bk_status b) reading)) db in
  (forall b, In b active <->
     In b (books_collection db) /\ bk_user_id b = uid /\ bk_status b = reading) /\
  match active with
  | [] => eval (switch_book_command uid) db = no_active_books_found
  | [b] => eval (switch_book_command uid) db = only_one_active (bk_title b)
  | _ :: _ :: _ =>
      exists offered,
        eval (switch_book_command uid) db = select_a_book (map button offered) /\
        Permutation offered active /\ newest_first offered
  end.
Proof.
  cbv zeta. split.
  - intros b. change (eval (books_find ?p) db) with (filter p (books_collection db)).
    rewrite filter_In, andb_true_iff. unfold owned_by. rewrite Z.eqb_eq.
    split.
    + intros (H & O & S). apply Status_eqb_eq in S. auto.
    + intros (H & O & S). rewrite S. auto.
  - unfold eval at 2 3 4. rewrite switch_book_command_run. cbn [fst].
    pose proof (sort_created_desc_perm
      (eval (books_find
               (fun b => owned_by uid b && Status_eqb (bk_status b) reading)) db)) as P.
    pose proof (sort_created_desc_sorted
      (eval (books_find
               (fun b => owned_by uid b && Status_eqb (bk_status b) reading)) db)) as S.
    destruct (eval (books_find _) db) as [|a [|b l]].
    + reflexivity.
    + reflexivity.
    + apply Permutation_length in P as L.
      destruct (sort_created_desc (a :: b :: l)) as [|x [|y r]]; try discriminate.
      exists (x :: y :: r). auto.
Qed.

(** ** Switching with an offered button *)

Lemma find_by_unique_id (l : list Book) b :
  NoDup (map bk_id l) -> In b l -> find (has_id (bk_id b)) l = Some b.
Proof.
  induction l as [|x r IH]; simpl; [tauto|].
  intros D H. inversion D as [|? ? N D']; subst.
  destruct H as [->|H].
  - unfold has_id. now rewrite Nat.eqb_refl.
  - destruct (has_id (bk_id b) x) eqn:E; [|auto].
    apply has_id_eq in E. exfalso. apply N. rewrite E. now apply in_map.
Qed.

(** X11. Pressing a button that [/switchbook] offers, in a store where ids
    identify and for a user with a record, switches to the offered book: the
    answer names its title, the books are untouched, and the user's current
    book is now that book, which the user owns and is reading. *)
Theorem offered_button_switches db uid keyboard title n oid :
  ids_unique db -> registered uid db ->
  eval (switch_book_command uid) db = select_a_book keyboard ->
  In (title, n, oid) keyboard ->
  let db' := exec (handle_callback_query uid (switch_ oid)) db in
  eval (handle_callback_query uid (switch_ oid)) db = switched_to title /\
  books_collection db' = books_collection db /\
  exists b,
    eval (get_current_book uid) db' = Some b /\
    bk_id b = oid /\ bk_title b = title /\ length (bk_notes b) = n /\
    bk_user_id b = uid /\ bk_status b = reading.
Proof.
  intros [D _] R K Hin.
  destruct (switch_keyboard_inv _ _ K) as (offered & -> & _ & _ & P).
  apply in_map_iff in Hin. destruct Hin as (b & E & Hb).
  injection E as <- <- <-.
  apply (Permutation_in _ P) in Hb.
  change (In b (filter (fun b => owned_by uid b && Status_eqb (bk_status b) reading)
                  (books_collection db))) in Hb.
  apply filter_In in Hb. destruct Hb as [Hb C].
  apply andb_true_iff in C. destruct C as [O S].
  apply Z.eqb_eq in O. apply Status_eqb_eq in S.
  pose proof (find_by_unique_id _ _ D Hb) as F.
  cbv zeta. unfold eval at 1, exec. rewrite handle_callback_query_switch.
  cbn [fst snd]. rewrite eval_books_find_one, F.
  split; [reflexivity|]. split; [reflexivity|].
  exists b. repeat split; trivial.
  unfold registered in R. rewrite eval_users_find_one in R.
  rewrite eval_get_current_book.
  change (users_collection
            (exec (users_update_one uid (set_current_book_id (Some (bk_id b)))) db))
    with (update_first (is_user uid) (set_current_book_id (Some (bk_id b)))
            (users_collection db)).
  rewrite find_update_first by reflexivity.
  destruct (find (is_user uid) (users_collection db)); [|congruence].
  exact F.
Qed.

Lemma offered_button_switches_witness :
  ids_unique two_books_db /\ registered 1%Z two_books_db /\
  eval (switch_book_command 1%Z) two_books_db =
    select_a_book [("B"%string, 1, 2); ("A"%string, 1, 1)] /\
  In ("A"%string, 1, 1) [("B"%string, 1, 2); ("A"%string, 1, 1)] /\
  exists b,
    eval (get_current_book 1%Z)
      (exec (handle_callback_query 1%Z (switch_ 1)) two_books_db) = Some b /\
    bk_id b = 1 /\ bk_title b = "A"%string /\ length (bk_notes b) = 1 /\
    bk_user_id b = 1%Z /\ bk_status b = reading.
Proof.
  assert (U : ids_unique two_books_db).
  { split; cbv; repeat (constructor; [intros H; cbv in H; intuition congruence|]);
      constructor. }
  assert (R : registered 1%Z two_books_db) by (cbv; discriminate).
  assert (I : In ("A"%string, 1, 1) [("B"%string, 1, 2); ("A"%string, 1, 1)])
    by (right; left; reflexivity).
  split; [exact U|]. split; [exact R|]. split; [reflexivity|]. split; [exact I|].
  exact (proj2 (proj2 (@offered_button_switches two_books_db 1%Z _ _ _ _
                         U R eq_refl I))).
Defined.

(** ** The current book when no switch button is pressed *)

Lemma In_update_first_inv A (p : A -> bool) f l x :
  In x (update_first p f l) ->
  In x l \/ exists y, In y l /\ p y = true /\ x = f y.
Proof.
  induction l as [|a r IH]; simpl; [tauto|].
  destruct (p a) eqn:E; simpl.
  - intros [<-|H]; [right; exists a; auto | auto].
  - intros [<-|H]; [auto|]. destruct (IH H) as [H'|(y & Hy & Py & ->)]; [auto|].
    right. exists y. auto.
Qed.

Lemma In_update_first A (p : A -> bool) f l b :
  In b l -> In b (update_first p f l) \/ In (f b) (update_first p f l).
Proof.
  induction l as [|a r IH]; simpl; [tauto|].
  destruct (p a); simpl.
  - intros [->|H]; auto.
  - intros [->|H]; [auto|]. destruct (IH H); auto.
Qed.

Lemma In_update_first_skip A (p : A -> bool) f l b :
  In b l -> p b = false -> In b (update_first p f l).
Proof.
  induction l as [|a r IH]; simpl; [tauto|].
  destruct (p a) eqn:E; simpl.
  - intros [->|H] Pb; [congruence | auto].
  - intros [->|H] Pb; auto.
Qed.

Lemma NoDup_map_inj A B (g : A -> B) l x y :
  NoDup (map g l) -> In x l -> In y l -> g x = g y -> x = y.
Proof.
  induction l as [|a r IH]; simpl; [tauto|].
  intros D. inversion D as [|? ? N D']; subst.
  intros [->|Hx] [->|Hy] E; auto.
  - exfalso. apply N. rewrite E. now apply in_map.
  - exfalso. apply N. rewrite <- E. now apply in_map.
Qed.

Lemma pointers_frame db db' :
  pointers_own_reading db ->
  (forall b, In b (books_collection db) ->
     exists b', In b' (books_collection db') /\ bk_id b' = bk_id b /\
                bk_user_id b' = bk_user_id b /\ bk_status b' = bk_status b) ->
  (forall x, In x (users_collection db') ->
     usr_current_book_id x = None \/
     exists y, In y (users_collection db) /\ usr_user_id x = usr_user_id y /\
               usr_current_book_id x = usr_current_book_id y) ->
  pointers_own_reading db'.
Proof.
  intros I B U x oid Hx P.
  destruct (U x Hx) as [N|(y & Hy & E1 & E2)]; [congruence|].
  rewrite E2 in P. destruct (I y oid Hy P) as (b & Hb & Ib & Ob & Sb).
  destruct (B b Hb) as (b' & Hb' & I' & O' & S').
  exists b'. repeat split; congruence.
Qed.

Lemma current_book_own_reading db uid b :
  ids_unique db -> pointers_own_reading db ->
  eval (get_current_book uid) db = Some b ->
  bk_user_id b = uid /\ bk_status b = reading.
Proof.
  intros [D _] I G.
  destruct (current_book_located _ _ G) as (u & l1 & l2 & U & C & E & _).
  apply find_some in U. destruct U as [Hu Pu]. apply Z.eqb_eq in Pu.
  destruct (I u _ Hu C) as (b0 & H0 & I0 & O0 & S0).
  assert (Hb : In b (books_collection db))
    by (rewrite E; apply in_or_app; right; now left).
  assert (b0 = b) by (eapply NoDup_map_inj; eauto). subst b0.
  split; congruence.
Qed.

Lemma finish_keeps_pointers db uid now :
  ids_unique db -> pointers_own_reading db ->
  pointers_own_reading (exec (finish_book_command uid now) db).
Proof.
  intros Q I. unfold exec. rewrite finish_book_command_run.
  destruct (eval (get_current_book uid) db) as [b|] eqn:G; [|exact I].
  cbn [snd]. destruct (@current_book_own_reading db uid b Q I G) as [Ob Sb].
  destruct (current_book_located _ _ G) as (u0 & k1 & k2 & U0 & _ & Eb & _).
  assert (Hb : In b (books_collection db))
    by (rewrite Eb; apply in_or_app; right; now left).
  destruct Q as [Dbk DU].
  destruct (find_first_match _ _ U0) as (l1 & l2 & E & N1 & P0).
  intros x oid Hx P.
  change (In x (update_first (is_user uid) (set_current_book_id None)
                  (users_collection db))) in Hx.
  rewrite E in Hx. rewrite update_first_at in Hx by assumption.
  assert (Hx' : In x (l1 ++ l2)).
  { apply in_app_or in Hx. destruct Hx as [H|[<-|H]];
      [apply in_or_app; auto | discriminate | apply in_or_app; auto]. }
  assert (Hxu : In x (users_collection db)).
  { rewrite E. apply in_app_or in Hx'. apply in_or_app.
    destruct Hx'; [auto | right; now right]. }
  assert (Dx : usr_user_id x <> uid).
  { rewrite E, map_app in DU. cbn [map] in DU. apply NoDup_remove_2 in DU.
    intros Ex. apply DU. rewrite <- map_app.
    apply Z.eqb_eq in P0. rewrite P0, <- Ex. now apply in_map. }
  destruct (I x oid Hxu P) as (b0 & H0 & I0 & O0 & S0).
  exists b0. repeat split; trivial.
  change (In b0 (update_first (has_id (bk_id b)) (set_finished now)
                   (books_collection db))).
  apply In_update_first_skip; [exact H0|].
  unfold has_id. apply Nat.eqb_neq. intros Eid.
  assert (b0 = b) by (eapply NoDup_map_inj; eauto). subst b0. congruence.
Qed.

Lemma new_book_keeps_pointers db uid args now :
  pointers_own_reading db ->
  pointers_own_reading (exec (new_book_command uid args now) db).
Proof.
  intros I. destruct args as [|a args]; [exact I|].
  unfold exec. rewrite new_book_command_run. cbn [snd].
  intros x oid Hx P. cbn [users_collection books_collection] in *.
  apply In_update_first_inv in Hx. destruct Hx as [Hx|(y & Hy & Py & ->)].
  - destruct (I x oid Hx P) as (b & Hb & R). exists b.
    split; [apply in_or_app; auto | exact R].
  - cbn in P. injection P as <-. eexists. split.
    + apply in_or_app. right. left. reflexivity.
    + cbn. apply Z.eqb_eq in Py. auto.
Qed.

Lemma update_one_keeps_pointers db oid f :
  (forall b, bk_id (f b) = bk_id b /\ bk_user_id (f b) = bk_user_id b /\
             bk_status (f b) = bk_status b) ->
  pointers_own_reading db ->
  pointers_own_reading (exec (books_update_one oid f) db).
Proof.
  intros Hf I. apply (@pointers_frame db _ I).
  - intros b Hb.
    change (books_collection (exec (books_update_one oid f) db))
      with (update_first (has_id oid) f (books_collection db)).
    destruct (In_update_first (has_id oid) f _ _ Hb); [eauto|].
    exists (f b). split; [assumption | apply Hf].
  - intros x Hx. right. exists x. auto.
Qed.

Lemma start_keeps_pointers db uid name t1 t2 :
  pointers_own_reading db ->
  pointers_own_reading (exec (start_command uid name t1 t2) db).
Proof.
  intros I. apply (@pointers_frame db _ I).
  - intros b Hb. exists b. destruct db; auto.
  - intros x Hx.
    change (In x (upsert_first (is_user uid)
                    (set_username_last_active (or_Anonymous name) t1)
                    (mkUser uid (or_Anonymous name) t1 t2 None)
                    (users_collection db))) in Hx.
    unfold upsert_first in Hx. destruct (existsb _ _).
    + apply In_update_first_inv in Hx.
      destruct Hx as [Hx|(y & Hy & _ & ->)]; right; eauto.
    + apply in_app_or in Hx. destruct Hx as [Hx|[<-|[]]]; [right; eauto | now left].
Qed.

Lemma dispatch_keeps_pointers u db :
  is_switch u = false -> ids_unique db -> pointers_own_reading db ->
  pointers_own_reading (exec (dispatch u) db).
Proof.
  intros S Q I. destruct u; cbn [dispatch].
  - now apply start_keeps_pointers.
  - exact I.
  - now apply new_book_keeps_pointers.
  - unfold exec. now rewrite my_books_command_run.
  - now rewrite current_book_command_pure.
  - unfold exec. now rewrite switch_book_command_run.
  - unfold exec. rewrite generate_review_command_run.
    destruct (eval (get_current_book user_id) db) as [b|]; [|exact I].
    destruct (bk_notes b); [exact I|].
    destruct (chat _); [|exact I].
    apply update_one_keeps_pointers; [|exact I]. intros x. auto.
  - now apply finish_keeps_pointers.
  - now rewrite stats_command_pure.
  - unfold exec. rewrite handle_text_note_run.
    destruct (eval (get_current_book user_id) db) as [b|]; [|exact I].
    apply update_one_keeps_pointers; [|exact I]. intros x. auto.
  - unfold exec. rewrite handle_voice_note_run.
    destruct (eval (get_current_book user_id) db) as [b|]; [|exact I].
    destruct transcript; [|exact I].
    apply update_one_keeps_pointers; [|exact I]. intros x. auto.
  - destruct data; [discriminate | exact I | exact I].
Qed.

Lemma run_keeps_pointers us : forall db,
  forallb (fun u => negb (is_switch u)) us = true ->
  ids_unique db -> pointers_own_reading db ->
  ids_unique (run us db) /\ pointers_own_reading (run us db).
Proof.
  induction us as [|u us IH]; intros db H Q I; [auto|].
  cbn [forallb] in H. apply andb_true_iff in H. destruct H as [Hu H].
  apply negb_true_iff in Hu. cbn [run].
  apply IH; [exact H | now apply dispatch_ids_unique |
             now apply dispatch_keeps_pointers].
Qed.

(** X12. As long as no switch button is pressed, the current book of a user
    is one of the user's own books and is being read: from a store where
    ids identify and every current-book pointer names a reading book of its
    user (the empty store, for one), any run of updates without a switch
    press leads to a store where every pointer again names a reading book
    of its user, and where whatever [get_current_book] returns is owned by
    the user and has status reading. *)
Theorem current_book_is_own_and_reading us db :
  ids_unique db -> pointers_own_reading db ->
  forallb (fun u => negb (is_switch u)) us = true ->
  pointers_own_reading (run us db) /\
  forall uid b,
    eval (get_current_book uid) (run us db) = Some b ->
    bk_user_id b = uid /\ bk_status b = reading.
Proof.
  intros Q I H. destruct (run_keeps_pointers us H Q I) as [Q' I'].
  split; [exact I'|]. intros uid b G.
  exact (@current_book_own_reading _ uid b Q' I' G).
Qed.

Lemma pointers_own_reading_empty : pointers_own_reading empty_db.
Proof. intros u oid []. Qed.

Lemma current_book_is_own_and_reading_witness :
  ids_unique empty_db /\ pointers_own_reading empty_db /\
  forallb (fun u => negb (is_switch u)) tie_trace = true /\
  pointers_own_reading (run tie_trace empty_db) /\
  (eval (get_current_book 1%Z) (run tie_trace empty_db) =
     Some (mkBook 2 1%Z "B" [mkNote "second" text 4 11%Z None] reading 3
                  None None None) ->
   bk_user_id (mkBook 2 1%Z "B" [mkNote "second" text 4 11%Z None] reading 3
                      None None None) = 1%Z).
Proof.
  split; [exact ids_unique_empty|]. split; [exact pointers_own_reading_empty|].
  split; [reflexivity|].
  destruct (@current_book_is_own_and_reading tie_trace empty_db
              ids_unique_empty pointers_own_reading_empty eq_refl) as [I C].
  split; [exact I|]. intros G. exact (proj1 (C _ _ G)).
Defined.

(** ** The finish date when no switch button is pressed *)

Lemma nth_error_update_first A (p : A -> bool) f l : forall i b,
  nth_error l i = Some b ->
  nth_error (update_first p f l) i = Some b \/
  (p b = true /\ find p l = Some b /\ nth_error (update_first p f l) i = Some (f b)).
Proof.
  induction l as [|a r IH]; intros [|i] b; simpl; try discriminate.
  - intros [= ->]. destruct (p b) eqn:E; simpl; auto.
  - intros H. destruct (p a) eqn:E; simpl; [auto|].
    destruct (IH i b H) as [H'|(P & F & H')]; auto.
Qed.

Lemma update_one_keeps_finished db oid f i b :
  (forall x, bk_status (f x) = bk_status x /\
             bk_finished_at (f x) = bk_finished_at x) ->
  nth_error (books_collection db) i = Some b ->
  exists b',
    nth_error (books_collection (exec (books_update_one oid f) db)) i = Some b' /\
    bk_status b' = bk_status b /\ bk_finished_at b' = bk_finished_at b.
Proof.
  intros Hf N.
  change (books_collection (exec (books_update_one oid f) db))
    with (update_first (has_id oid) f (books_collection db)).
  destruct (nth_error_update_first (has_id oid) f _ _ N) as [H|(_ & _ & H)].
  - exists b. auto.
  - exists (f b). split; [exact H | apply Hf].
Qed.

Lemma dispatch_keeps_finished u db i b :
  is_switch u = false -> ids_unique db -> pointers_own_reading db ->
  nth_error (books_collection db) i = Some b -> bk_status b = finished ->
  exists b',
    nth_error (books_collection (exec (dispatch u) db)) i = Some b' /\
    bk_status b' = finished /\ bk_finished_at b' = bk_finished_at b.
Proof.
  intros S Q I N F.
  assert (Same : exists b', nth_error (books_collection db) i = Some b' /\
                            bk_status b' = finished /\
                            bk_finished_at b' = bk_finished_at b)
    by (exists b; auto).
  assert (Upd : forall oid f,
            (forall x, bk_status (f x) = bk_status x /\
                       bk_finished_at (f x) = bk_finished_at x) ->
            exists b',
              nth_error (books_collection (exec (books_update_one oid f) db)) i =
                Some b' /\
              bk_status b' = finished /\ bk_finished_at b' = bk_finished_at b).
  { intros oid f Hf.
    destruct (update_one_keeps_finished db oid f i Hf N) as (b' & N' & S' & D').
    exists b'. repeat split; congruence. }
  destruct u; cbn [dispatch].
  - destruct (start_command_step db user_id username now_active now_created)
      as (-> & _). exact Same.
  - exact Same.
  - destruct args; [exact Same|].
    unfold exec. rewrite new_book_command_run. cbn [snd books_collection].
    exists b. rewrite nth_error_app1; [auto|].
    apply nth_error_Some. congruence.
  - unfold exec. now rewrite my_books_command_run.
  - now rewrite current_book_command_pure.
  - unfold exec. now rewrite switch_book_command_run.
  - unfold exec. rewrite generate_review_command_run.
    destruct (eval (get_current_book user_id) db) as [c|]; [|exact Same].
    destruct (bk_notes c); [exact Same|].
    destruct (chat _); [|exact Same]. apply Upd. intros x. auto.
  - unfold exec. rewrite finish_book_command_run.
    destruct (eval (get_current_book user_id) db) as [c|] eqn:G; [|exact Same].
    destruct (@current_book_own_reading db user_id c Q I G) as [_ Sc].
    apply current_book_found in G. rewrite eval_books_find_one in G.
    cbn [snd].
    change (books_collection
              (exec (users_update_one user_id (set_current_book_id None))
                 (exec (books_update_one (bk_id c) (set_finished now)) db)))
      with (update_first (has_id (bk_id c)) (set_finished now)
              (books_collection db)).
    destruct (nth_error_update_first (has_id (bk_id c)) (set_finished now) _ _ N)
      as [H|(_ & Fb & _)].
    + exists b. auto.
    + congruence.
  - now rewrite stats_command_pure.
  - unfold exec. rewrite handle_text_note_run.
    destruct (eval (get_current_book user_id) db) as [c|]; [|exact Same].
    apply Upd. intros x. auto.
  - unfold exec. rewrite handle_voice_note_run.
    destruct (eval (get_current_book user_id) db) as [c|]; [|exact Same].
    destruct transcript; [|exact Same]. apply Upd. intros x. auto.
  - destruct data; [discriminate | exact Same | exact Same].
Qed.

(** X13. Without a switch press the finish date is written once: from a store
    where ids identify and every current-book pointer names a reading book
    of its user, over any run of updates in which no switch button is
    pressed, a stored finished book stays finished and keeps its
    [finished_at]. *)
Theorem finished_at_kept_without_switch us : forall db i b,
  ids_unique db -> pointers_own_reading db ->
  forallb (fun u => negb (is_switch u)) us = true ->
  nth_error (books_collection db) i = Some b -> bk_status b = finished ->
  exists b',
    nth_error (books_collection (run us db)) i = Some b' /\
    bk_status b' = finished /\ bk_finished_at b' = bk_finished_at b.
Proof.
  induction us as [|u us IH]; intros db i b Q I H N F.
  - exists b. auto.
  - cbn [forallb] in H. apply andb_true_iff in H. destruct H as [Hu H].
    apply negb_true_iff in Hu. cbn [run].
    destruct (dispatch_keeps_finished u i Hu Q I N F) as (b1 & N1 & F1 & D1).
    destruct (IH (exec (dispatch u) db) i b1
                (dispatch_ids_unique u Q) (dispatch_keeps_pointers u Hu Q I)
                H N1 F1) as (b' & N' & F' & D').
    exists b'. repeat split; congruence.
Qed.

Lemma finished_at_kept_without_switch_witness :
  ids_unique finished_db /\ pointers_own_reading finished_db /\
  forallb (fun u => negb (is_switch u)) later_trace = true /\
  nth_error (books_collection finished_db) 1 = Some finished_B /\
  bk_status finished_B = finished /\
  exists b',
    nth_error (books_collection (run later_trace finished_db)) 1 = Some b' /\
    bk_status b' = finished /\ bk_finished_at b' = bk_finished_at finished_B.
Proof.
  destruct (@run_keeps_pointers
              [cmd_start 1%Z (Some "reader"%string) 0 0;
               cmd_newbook 1%Z ["A"%string] 1;
               cmd_newbook 1%Z ["B"%string] 2;
               cmd_finish 1%Z 3] empty_db eq_refl
              ids_unique_empty pointers_own_reading_empty) as [Q I].
  split; [exact Q|]. split; [exact I|]. split; [reflexivity|].
  split; [reflexivity|]. split; [reflexivity|].
  exact (@finished_at_kept_without_switch later_trace finished_db 1 finished_B
           Q I eq_refl eq_refl eq_refl).
Defined.

(** ** Reviews *)

Lemma update_first_absorb A (p : A -> bool) f g l :
  (forall x, p (f x) = p x) -> (forall x, g (f x) = g x) ->
  update_first p g (update_first p f l) = update_first p g l.
Proof.
  intros Hp Hg. induction l as [|x r IH]; simpl; [reflexivity|].
  destruct (p x) eqn:E; simpl.
  - now rewrite Hp, E, Hg.
  - now rewrite E, IH.
Qed.

Lemma generate_review_command_notes db uid b chat now sent :
  eval (get_current_book uid) db = Some b -> bk_notes b <> [] ->
  generate_review_command uid chat now sent db =
  match chat (prompt (bk_title b) (notes_text (bk_notes b))) with
  | Some answer =>
      (if sent
       then review_text (bk_title b) (length (bk_notes b)) (strip answer)
       else review_failed,
       exec (books_update_one (bk_id b) (set_review (strip answer) now)) db)
  | None => (review_failed, db)
  end.
Proof.
  intros G N. rewrite generate_review_command_run, G.
  destruct (bk_notes b); [congruence | reflexivity].
Qed.

(** X14. A review can be generated again: when the language model answers
    both times, the second generation replaces the first entirely, so the
    store is the one a single second generation would have left, and the
    current book carries the second answer and date; this whether or not
    the review messages could be sent. *)
Theorem review_regeneration_overwrites db uid b chat1 chat2 t1 t2 a1 a2 sent1 sent2 :
  eval (get_current_book uid) db = Some b ->
  bk_notes b <> [] ->
  chat1 (prompt (bk_title b) (notes_text (bk_notes b))) = Some a1 ->
  chat2 (prompt (bk_title b) (notes_text (bk_notes b))) = Some a2 ->
  let first := generate_review_command uid chat1 t1 sent1 in
  let second := generate_review_command uid chat2 t2 sent2 in
  exec second (exec first db) = exec second db /\
  eval second (exec first db) =
    (if sent2 then review_text (bk_title b) (length (bk_notes b)) (strip a2)
     else review_failed) /\
  eval (get_current_book uid) (exec second (exec first db)) =
    Some (set_review (strip a2) t2 b).
Proof.
  intros G N C1 C2. cbv zeta.
  assert (R1 : exec (generate_review_command uid chat1 t1 sent1) db =
               exec (books_update_one (bk_id b) (set_review (strip a1) t1)) db).
  { unfold exec at 1.
    now rewrite (@generate_review_command_notes db uid b chat1 t1 sent1 G N), C1. }
  assert (R2 : generate_review_command uid chat2 t2 sent2 db =
               (if sent2
                then review_text (bk_title b) (length (bk_notes b)) (strip a2)
                else review_failed,
                exec (books_update_one (bk_id b) (set_review (strip a2) t2)) db)).
  { now rewrite (@generate_review_command_notes db uid b chat2 t2 sent2 G N), C2. }
  pose proof (@current_book_after_update uid db b (set_review (strip a1) t1)
                (fun x => eq_refl) G) as G1.
  assert (R3 : generate_review_command uid chat2 t2 sent2
                 (exec (books_update_one (bk_id b) (set_review (strip a1) t1)) db) =
               (if sent2
                then review_text (bk_title b) (length (bk_notes b)) (strip a2)
                else review_failed,
                exec (books_update_one (bk_id b) (set_review (strip a2) t2))
                  (exec (books_update_one (bk_id b) (set_review (strip a1) t1)) db))).
  { rewrite (@generate_review_command_notes _ uid _ chat2 t2 sent2 G1 N).
    cbn [set_review bk_notes bk_title bk_id]. now rewrite C2. }
  assert (E : exec (books_update_one (bk_id b) (set_review (strip a2) t2))
                (exec (books_update_one (bk_id b) (set_review (strip a1) t1)) db) =
              exec (books_update_one (bk_id b) (set_review (strip a2) t2)) db).
  { unfold_db. destruct db as [users books]. f_equal.
    apply update_first_absorb; reflexivity. }
  assert (X2 : exec (generate_review_command uid chat2 t2 sent2) db =
               exec (books_update_one (bk_id b) (set_review (strip a2) t2)) db)
    by (unfold exec at 1; now rewrite R2).
  assert (X3 : exec (generate_review_command uid chat2 t2 sent2)
                 (exec (books_update_one (bk_id b) (set_review (strip a1) t1)) db) =
               exec (books_update_one (bk_id b) (set_review (strip a2) t2)) db)
    by (unfold exec at 1; now rewrite R3).
  assert (Y3 : eval (generate_review_command uid chat2 t2 sent2)
                 (exec (books_update_one (bk_id b) (set_review (strip a1) t1)) db) =
               (if sent2
                then review_text (bk_title b) (length (bk_notes b)) (strip a2)
                else review_failed))
    by (unfold eval at 1; now rewrite R3).
  rewrite R1, X2, X3, Y3.
  split; [reflexivity|]. split; [reflexivity|].
  apply current_book_after_update; [reflexivity | exact G].
Qed.

Lemma review_regeneration_overwrites_witness :
  eval (get_current_book 1%Z) noted_db = Some noted_book /\
  bk_notes noted_book <> [] /\
  eval (get_current_book 1%Z)
    (exec (generate_review_command 1%Z (fun _ => Some " second "%string) 9 true)
       (exec (generate_review_command 1%Z (fun _ => Some "first"%string) 8 true)
          noted_db)) =
    Some (set_review (strip " second ") 9 noted_book).
Proof.
  assert (N : bk_notes noted_book <> []) by discriminate.
  split; [reflexivity|]. split; [exact N|].
  exact (proj2 (proj2
    (@review_regeneration_overwrites noted_db 1%Z noted_book
       (fun _ => Some "first"%string) (fun _ => Some " second "%string) 8 9
       "first"%string " second "%string true true eq_refl N eq_refl eq_refl))).
Defined.

(** ** After a finish *)

(** X15. Once the current book is finished the user has no current book: until
    a new book is started or switched to, text notes, voice notes, reviews
    and the current-book display are all answered with "no active book" and
    write nothing, so no note can slip into the finished book. *)
Theorem after_finish_nothing_is_current db uid b now :
  eval (get_current_book uid) db = Some b ->
  let db' := exec (finish_book_command uid now) db in
  (forall s mid t, handle_text_note uid s mid t db' = (no_active_book, db')) /\
  (forall tr mid d t sent,
     handle_voice_note uid tr mid d t sent db' = (no_active_book, db')) /\
  (forall chat t sent,
     generate_review_command uid chat t sent db' = (no_active_book, db')) /\
  current_book_command uid db' = (no_active_book, db') /\
  eval (books_find_one (bk_id b)) db' = Some (set_finished now b).
Proof.
  intros G. cbv zeta. unfold exec. rewrite finish_book_command_run, G. cbn [snd].
  pose proof (current_book_cleared uid
                (exec (books_update_one (bk_id b) (set_finished now)) db)) as C.
  repeat split.
  - intros. now rewrite handle_text_note_run, C.
  - intros. now rewrite handle_voice_note_run, C.
  - intros. now rewrite generate_review_command_run, C.
  - unfold current_book_command, bind. now rewrite get_current_book_pure, C.
  - apply current_book_found in G. rewrite eval_books_find_one in *.
    change (find (has_id (bk_id b))
              (update_first (has_id (bk_id b)) (set_finished now)
                 (books_collection db)) = Some (set_finished now b)).
    now rewrite find_update_first, G.
Qed.

Lemma after_finish_nothing_is_current_witness :
  eval (get_current_book 1%Z) noted_db = Some noted_book /\
  handle_text_note 1%Z "late" 40%Z 6 (exec (finish_book_command 1%Z 5) noted_db) =
    (no_active_book, exec (finish_book_command 1%Z 5) noted_db).
Proof.
  split; [reflexivity|].
  exact (proj1 (@after_finish_nothing_is_current noted_db 1%Z noted_book 5 eq_refl)
           "late"%string 40%Z 6).
Defined.

(** ** Starting a book without a title or without a record *)

(** X16. [/newbook] without arguments asks for a title and writes nothing.
    With arguments it always inserts the book, titled with the arguments
    joined by single spaces; but for a user who has no record in [users] no
    record is made and no current book is set: the book has its line in
    [/mybooks], reading, without notes and without the current marker, and
    [get_current_book] returns nothing. *)
Theorem new_book_without_title_or_record db uid now :
  new_book_command uid [] now db = (provide_title, db) /\
  forall a args,
    ~ registered uid db ->
    let db' := exec (new_book_command uid (a :: args) now) db in
    users_collection db' = users_collection db /\
    books_collection db' =
      books_collection db ++
      [mkBook (new_ObjectId (books_collection db)) uid (join " " (a :: args))
              [] reading now None None None] /\
    eval (get_current_book uid) db' = None /\
    exists lines,
      eval (my_books_command uid) db' = books_text lines /\
      In (reading, join " " (a :: args), false, 0) lines.
Proof.
  split; [reflexivity|]. intros a args R. cbv zeta.
  assert (F : find (is_user uid) (users_collection db) = None).
  { unfold registered in R. rewrite eval_users_find_one in R.
    destruct (find _ _); [exfalso; apply R; discriminate | reflexivity]. }
  unfold exec. rewrite new_book_command_run. cbn [snd].
  rewrite (update_first_no_match _ _ _ F).
  split; [reflexivity|]. split; [reflexivity|]. split.
  - rewrite eval_get_current_book. cbn [users_collection]. now rewrite F.
  - unfold eval at 1. rewrite my_books_command_run. cbn [fst].
    rewrite eval_users_find_one. cbn [users_collection]. rewrite F.
    assert (H : In (mkBook (new_ObjectId (books_collection db)) uid
                      (join " " (a :: args)) [] reading now None None None)
                   (filter (owned_by uid)
                      (books_collection db ++
                       [mkBook (new_ObjectId (books_collection db)) uid
                          (join " " (a :: args)) [] reading now None None None]))).
    { apply filter_In. split; [apply in_or_app; right; now left|].
      apply Z.eqb_refl. }
    match goal with
    | |- context [eval (books_find (owned_by uid)) ?d] =>
        change (eval (books_find (owned_by uid)) d)
          with (filter (owned_by uid)
                  (books_collection db ++
                   [mkBook (new_ObjectId (books_collection db)) uid
                      (join " " (a :: args)) [] reading now None None None]))
    end.
    apply (Permutation_in _ (Permutation_sym (sort_created_desc_perm _))) in H as S.
    destruct (filter (owned_by uid) _) eqn:Fb; [destruct H|].
    eexists. split; [reflexivity|].
    apply (in_map (listing_line None)) in S. exact S.
Qed.

Lemma new_book_without_title_or_record_witness :
  ~ registered 7%Z dune_db /\
  eval (get_current_book 7%Z)
    (exec (new_book_command 7%Z ["Emma"%string] 50) dune_db) = None.
Proof.
  assert (R : ~ registered 7%Z dune_db) by (intros H; apply H; reflexivity).
  split; [exact R|].
  exact (proj1 (proj2 (proj2
    (proj2 (new_book_without_title_or_record dune_db 7%Z 50)
       "Emma"%string [] R)))).
Defined.
